(** * DozedEnt: the two text-rewriting scripts

    [rewrite_script.py] splices the contents of [new_script.js] over the
    module script of [demos/working-multiplayer-demo.html];
    [tmp_modify.py] injects a block of style rules into [public/index.html]
    and replaces its [game-info] panel by a larger block of markup; as it
    stands it stops at its first statement, which uses a name it never
    imports.

    Both scripts are straight-line Python.  A Python [str] is modelled as the
    list of its Unicode code points, the string methods the scripts call
    ([index], [in], [replace], slicing) as executable functions on such lists,
    and the file accesses as a state-and-exception monad over a file store. *)

From Stdlib Require Import String Ascii List NArith Arith Bool Lia.
Import ListNotations.
Open Scope list_scope.

(** ** Python strings *)

(** A character is a Unicode code point, a [str] a sequence of them. *)
Definition char := N.
Definition str := list char.

(** An ASCII literal, one code point per character. *)
Definition lit (s : string) : str := map N_of_ascii (list_ascii_of_string s).
Arguments lit s%_string.

(** The characters the literals below cannot hold directly. *)
Definition nl : str := [10%N].          (* \n *)
Definition dq : str := [34%N].          (* the double quote *)
Definition em_dash : str := [8212%N].   (* U+2014 *)
Definition times_sign : str := [215%N]. (* U+00D7 *)

(** [s.startswith(sub)] *)
Fixpoint startswith (s sub : str) : bool :=
  match sub, s with
  | [], _ => true
  | _ :: _, [] => false
  | a :: sub', b :: s' => N.eqb a b && startswith s' sub'
  end.

(** [s.find(sub)]: the lowest index at which [sub] occurs in [s]. *)
Fixpoint find (s sub : str) : option nat :=
  if startswith s sub then Some 0
  else match s with
       | [] => None
       | _ :: s' => option_map S (find s' sub)
       end.

(** [s.find(sub, start)]: the lowest index [>= start] at which [sub] occurs;
    nothing is found when [start] is past the end of [s]. *)
Definition find_from (s sub : str) (start : nat) : option nat :=
  if length s <? start then None
  else option_map (Nat.add start) (find (skipn start s) sub).

(** [sub in s] *)
Definition contains (sub s : str) : bool :=
  match find s sub with Some _ => true | None => false end.

(** [s.replace(old, new)] for a non-empty [old]: scan [s] from the left; at an
    occurrence of [old] emit [new] and skip the rest of the occurrence, else
    copy the character.  [skip] counts the characters still to be skipped. *)
Fixpoint replace_scan (old new s : str) (skip : nat) : str :=
  match s with
  | [] => []
  | c :: s' =>
      match skip with
      | S k => replace_scan old new s' k
      | O => if startswith s old
             then new ++ replace_scan old new s' (length old - 1)
             else c :: replace_scan old new s' 0
      end
  end.

(** [s.replace(old, new)]: every non-overlapping occurrence of [old], from the
    left, is replaced by [new]; an empty [old] matches before every character
    and at the end. *)
Definition replace (s old new : str) : str :=
  match old with
  | [] => new ++ flat_map (fun c => c :: new) s
  | _ :: _ => replace_scan old new s 0
  end.

(** [s[:i]] and [s[i:]] for [0 <= i]. *)
Definition slice_to (s : str) (i : nat) : str := firstn i s.
Definition slice_from (s : str) (i : nat) : str := skipn i s.

(** The number of positions of [s] at which [sub] occurs. *)
Fixpoint occurrences (sub s : str) : nat :=
  (if startswith s sub then 1 else 0) +
  match s with
  | [] => 0
  | _ :: s' => occurrences sub s'
  end.

(** [sep.join(pieces)] *)
Fixpoint join (sep : str) (pieces : list str) : str :=
  match pieces with
  | [] => []
  | [p] => p
  | p :: ps => p ++ sep ++ join sep ps
  end.

(** ** Exceptions, results and the file store *)

Inductive exn : Type :=
| ValueError (msg : string)          (* raised by [str.index] *)
| SystemExit (msg : string)          (* [raise SystemExit(msg)] *)
| NameError (msg : string)           (* a name that nothing binds *)
| FileNotFoundError (path : string)  (* [read_text]: no file at the path *)
| UnicodeDecodeError (path : string) (* [read_text]: bytes that are not UTF-8 *)
| OSError (path : string)            (* [read_text]: a directory, no access, ... *).

Inductive result (A : Type) : Type :=
| Ok (a : A)
| Raise (e : exn).
Arguments Ok {A} a.
Arguments Raise {A} e.

(** [s.index(sub, start)]: as [find], but a miss raises [ValueError]. *)
Definition index (s sub : str) (start : nat) : result nat :=
  match find_from s sub start with
  | Some i => Ok i
  | None => Raise (ValueError "substring not found")
  end.

(** The file store: the text held at each path, as [read_text] returns it
    (decoded, line endings as Python presents them); for a path that holds no
    such text, the exception its read raises ([FileNotFoundError] when there
    is no file, [UnicodeDecodeError] when its bytes are not UTF-8, another
    [OSError] otherwise); and the log of the writes performed so far (most
    recent first). *)
Record world : Type := World {
  files : string -> option str;
  unreadable : string -> exn;
  written : list (string * str)
}.

(** A script is a computation over the store that returns or raises. *)
Definition IO (A : Type) : Type := world -> result A * world.

Definition ret {A} (a : A) : IO A := fun w => (Ok a, w).
Definition raise {A} (e : exn) : IO A := fun w => (Raise e, w).
Definition lift {A} (r : result A) : IO A := fun w => (r, w).
Definition bind {A B} (m : IO A) (k : A -> IO B) : IO B :=
  fun w => match m w with
           | (Ok a, w') => k a w'
           | (Raise e, w') => (Raise e, w')
           end.

Notation "x <- m ;; k" := (bind m (fun x => k))
  (at level 61, m at next level, right associativity).
Notation "m ;;; k" := (bind m (fun _ => k))
  (at level 61, right associativity).

(** [Path(p).read_text(encoding='utf-8')] *)
Definition read_text (p : string) : IO str :=
  fun w => match files w p with
           | Some t => (Ok t, w)
           | None => (Raise (unreadable w p), w)
           end.

(** The store once [t] has been written at [p]. *)
Definition store_after (w : world) (p : string) (t : str) : world :=
  World (fun q => if String.eqb q p then Some t else files w q)
        (unreadable w)
        ((p, t) :: written w).

(** [Path(p).write_text(t, encoding='utf-8')] *)
Definition write_text (p : string) (t : str) : IO unit :=
  fun w => (Ok tt, store_after w p t).

(** ** [rewrite_script.py] *)

Definition html_path : string := "demos/working-multiplayer-demo.html".
Definition script_path : string := "new_script.js".

Definition open_tag : str := lit "<script type=" ++ dq ++ lit "module" ++ dq ++ lit ">".
Definition close_tag : str := lit "</script>".

(** Lines 7-9: the two lookups and the splice. *)
Definition splice (html_text script_text : str) : result str :=
  match index html_text open_tag 0 with
  | Raise e => Raise e
  | Ok start =>
      match index html_text close_tag start with
      | Raise e => Raise e
      | Ok i =>
          let end_ := i + length close_tag in
          Ok (slice_to html_text start ++ script_text ++ slice_from html_text end_)
      end
  end.

(** The whole script, lines 3-10. *)
Definition rewrite_script : IO unit :=
  html_text <- read_text html_path ;;
  script_text <- read_text script_path ;;
  html_text' <- lift (splice html_text script_text) ;;
  write_text html_path html_text'.

(** ** [tmp_modify.py] *)

(** Unlike [rewrite_script.py], the file imports nothing: at line 2, the
    first statement, no name is bound yet and [Path] is not a builtin, so the
    evaluation of [Path('public/index.html')] raises [NameError]. *)
Definition name_Path : IO unit :=
  raise (NameError "name 'Path' is not defined").

Definition path : string := "public/index.html".

(** [css_insert] (tmp_modify.py, lines 5-218): the fixed block of style rules. *)
Definition css_insert : str :=
  nl
  ++ lit "    .combat-controls {" ++ nl
  ++ lit "      margin-top: 20px;" ++ nl
  ++ lit "      display: flex;" ++ nl
  ++ lit "      flex-direction: column;" ++ nl
  ++ lit "      gap: 12px;" ++ nl
  ++ lit "    }" ++ nl
  ++ nl
  ++ lit "    .combat-controls .control-row {" ++ nl
  ++ lit "      display: flex;" ++ nl
  ++ lit "      flex-wrap: wrap;" ++ nl
  ++ lit "      gap: 12px;" ++ nl
  ++ lit "      justify-content: center;" ++ nl
  ++ lit "    }" ++ nl
  ++ nl
  ++ lit "    .combat-button {" ++ nl
  ++ lit "      flex: 1 1 140px;" ++ nl
  ++ lit "      min-width: 140px;" ++ nl
  ++ lit "      border: 1px solid rgba(148, 163, 184, 0.25);" ++ nl
  ++ lit "      background: linear-gradient(135deg, rgba(56, 189, 248, 0.1), rgba(30, 64, 175, 0.25));" ++ nl
  ++ lit "      color: #f8fafc;" ++ nl
  ++ lit "      padding: 12px 16px;" ++ nl
  ++ lit "      border-radius: 12px;" ++ nl
  ++ lit "      font-weight: 600;" ++ nl
  ++ lit "      letter-spacing: 0.02em;" ++ nl
  ++ lit "      display: flex;" ++ nl
  ++ lit "      flex-direction: column;" ++ nl
  ++ lit "      gap: 6px;" ++ nl
  ++ lit "      align-items: center;" ++ nl
  ++ lit "      transition: transform 0.18s ease, box-shadow 0.18s ease, border-color 0.18s ease;" ++ nl
  ++ lit "    }" ++ nl
  ++ nl
  ++ lit "    .combat-button strong {" ++ nl
  ++ lit "      font-size: 0.95rem;" ++ nl
  ++ lit "      letter-spacing: 0.04em;" ++ nl
  ++ lit "    }" ++ nl
  ++ nl
  ++ lit "    .combat-button span {" ++ nl
  ++ lit "      font-size: 0.75rem;" ++ nl
  ++ lit "      letter-spacing: 0.08em;" ++ nl
  ++ lit "      text-transform: uppercase;" ++ nl
  ++ lit "      color: #94a3b8;" ++ nl
  ++ lit "    }" ++ nl
  ++ nl
  ++ lit "    .combat-button:focus-visible {" ++ nl
  ++ lit "      outline: 2px solid rgba(56, 189, 248, 0.6);" ++ nl
  ++ lit "      outline-offset: 2px;" ++ nl
  ++ lit "    }" ++ nl
  ++ nl
  ++ lit "    .combat-button:hover {" ++ nl
  ++ lit "      transform: translateY(-2px);" ++ nl
  ++ lit "      box-shadow: 0 12px 30px rgba(2, 6, 23, 0.45);" ++ nl
  ++ lit "    }" ++ nl
  ++ nl
  ++ lit "    .combat-button.is-active {" ++ nl
  ++ lit "      border-color: rgba(96, 165, 250, 0.9);" ++ nl
  ++ lit "      background: linear-gradient(135deg, rgba(59, 130, 246, 0.55), rgba(79, 70, 229, 0.65));" ++ nl
  ++ lit "      box-shadow: 0 18px 40px rgba(37, 99, 235, 0.35);" ++ nl
  ++ lit "    }" ++ nl
  ++ nl
  ++ lit "    .combat-telemetry {" ++ nl
  ++ lit "      margin-top: 28px;" ++ nl
  ++ lit "      display: grid;" ++ nl
  ++ lit "      gap: 18px;" ++ nl
  ++ lit "      grid-template-columns: repeat(auto-fit, minmax(240px, 1fr));" ++ nl
  ++ lit "    }" ++ nl
  ++ nl
  ++ lit "    .telemetry-card {" ++ nl
  ++ lit "      padding: 20px;" ++ nl
  ++ lit "      border-radius: 16px;" ++ nl
  ++ lit "      background: rgba(15, 23, 42, 0.78);" ++ nl
  ++ lit "      border: 1px solid rgba(148, 163, 184, 0.18);" ++ nl
  ++ lit "      box-shadow: 0 12px 32px rgba(2, 6, 23, 0.45);" ++ nl
  ++ lit "      display: flex;" ++ nl
  ++ lit "      flex-direction: column;" ++ nl
  ++ lit "      gap: 12px;" ++ nl
  ++ lit "    }" ++ nl
  ++ nl
  ++ lit "    .telemetry-card h3 {" ++ nl
  ++ lit "      margin: 0;" ++ nl
  ++ lit "      font-size: 1rem;" ++ nl
  ++ lit "      text-transform: uppercase;" ++ nl
  ++ lit "      letter-spacing: 0.08em;" ++ nl
  ++ lit "      color: #bfdbfe;" ++ nl
  ++ lit "    }" ++ nl
  ++ nl
  ++ lit "    .telemetry-list {" ++ nl
  ++ lit "      margin: 0;" ++ nl
  ++ lit "      padding: 0;" ++ nl
  ++ lit "      list-style: none;" ++ nl
  ++ lit "      display: grid;" ++ nl
  ++ lit "      gap: 8px;" ++ nl
  ++ lit "    }" ++ nl
  ++ nl
  ++ lit "    .telemetry-row {" ++ nl
  ++ lit "      display: flex;" ++ nl
  ++ lit "      justify-content: space-between;" ++ nl
  ++ lit "      gap: 12px;" ++ nl
  ++ lit "      font-size: 0.9rem;" ++ nl
  ++ lit "      color: #cbd5f5;" ++ nl
  ++ lit "    }" ++ nl
  ++ nl
  ++ lit "    .telemetry-label {" ++ nl
  ++ lit "      text-transform: uppercase;" ++ nl
  ++ lit "      letter-spacing: 0.06em;" ++ nl
  ++ lit "      font-size: 0.75rem;" ++ nl
  ++ lit "      color: #94a3b8;" ++ nl
  ++ lit "    }" ++ nl
  ++ nl
  ++ lit "    .telemetry-value {" ++ nl
  ++ lit "      font-variant-numeric: tabular-nums;" ++ nl
  ++ lit "      font-weight: 600;" ++ nl
  ++ lit "    }" ++ nl
  ++ nl
  ++ lit "    .telemetry-value.is-alert {" ++ nl
  ++ lit "      color: #f87171;" ++ nl
  ++ lit "    }" ++ nl
  ++ nl
  ++ lit "    .telemetry-value.is-ready {" ++ nl
  ++ lit "      color: #34d399;" ++ nl
  ++ lit "    }" ++ nl
  ++ nl
  ++ lit "    .status-effect-controls {" ++ nl
  ++ lit "      margin-top: 24px;" ++ nl
  ++ lit "      padding: 20px;" ++ nl
  ++ lit "      border-radius: 16px;" ++ nl
  ++ lit "      background: rgba(15, 23, 42, 0.7);" ++ nl
  ++ lit "      border: 1px solid rgba(59, 130, 246, 0.2);" ++ nl
  ++ lit "      box-shadow: 0 12px 28px rgba(2, 6, 23, 0.4);" ++ nl
  ++ lit "      display: flex;" ++ nl
  ++ lit "      flex-direction: column;" ++ nl
  ++ lit "      gap: 16px;" ++ nl
  ++ lit "    }" ++ nl
  ++ nl
  ++ lit "    .status-effect-controls h3 {" ++ nl
  ++ lit "      margin: 0;" ++ nl
  ++ lit "      font-size: 0.95rem;" ++ nl
  ++ lit "      letter-spacing: 0.06em;" ++ nl
  ++ lit "      text-transform: uppercase;" ++ nl
  ++ lit "      color: #a5b4fc;" ++ nl
  ++ lit "    }" ++ nl
  ++ nl
  ++ lit "    .status-effect-controls p {" ++ nl
  ++ lit "      margin: 0;" ++ nl
  ++ lit "      font-size: 0.85rem;" ++ nl
  ++ lit "      color: #94a3b8;" ++ nl
  ++ lit "    }" ++ nl
  ++ nl
  ++ lit "    .status-buttons {" ++ nl
  ++ lit "      display: flex;" ++ nl
  ++ lit "      flex-wrap: wrap;" ++ nl
  ++ lit "      gap: 12px;" ++ nl
  ++ lit "    }" ++ nl
  ++ nl
  ++ lit "    .status-button {" ++ nl
  ++ lit "      flex: 1 1 160px;" ++ nl
  ++ lit "      min-width: 140px;" ++ nl
  ++ lit "      border-radius: 10px;" ++ nl
  ++ lit "      border: 1px solid rgba(148, 163, 184, 0.25);" ++ nl
  ++ lit "      background: rgba(30, 64, 175, 0.2);" ++ nl
  ++ lit "      color: #e2e8f0;" ++ nl
  ++ lit "      padding: 10px 14px;" ++ nl
  ++ lit "      font-size: 0.85rem;" ++ nl
  ++ lit "      letter-spacing: 0.04em;" ++ nl
  ++ lit "      transition: transform 0.18s ease, box-shadow 0.18s ease, border-color 0.18s ease;" ++ nl
  ++ lit "    }" ++ nl
  ++ nl
  ++ lit "    .status-button:hover {" ++ nl
  ++ lit "      transform: translateY(-1px);" ++ nl
  ++ lit "      box-shadow: 0 10px 24px rgba(2, 6, 23, 0.35);" ++ nl
  ++ lit "    }" ++ nl
  ++ nl
  ++ lit "    .status-button:focus-visible {" ++ nl
  ++ lit "      outline: 2px solid rgba(129, 140, 248, 0.6);" ++ nl
  ++ lit "      outline-offset: 2px;" ++ nl
  ++ lit "    }" ++ nl
  ++ nl
  ++ lit "    .combat-badge {" ++ nl
  ++ lit "      display: inline-flex;" ++ nl
  ++ lit "      align-items: center;" ++ nl
  ++ lit "      gap: 6px;" ++ nl
  ++ lit "      padding: 4px 10px;" ++ nl
  ++ lit "      border-radius: 999px;" ++ nl
  ++ lit "      background: rgba(59, 130, 246, 0.16);" ++ nl
  ++ lit "      color: #bfdbfe;" ++ nl
  ++ lit "      font-size: 0.75rem;" ++ nl
  ++ lit "      letter-spacing: 0.06em;" ++ nl
  ++ lit "      text-transform: uppercase;" ++ nl
  ++ lit "    }" ++ nl
  ++ nl
  ++ lit "    @media (max-width: 720px) {" ++ nl
  ++ lit "      .combat-controls .control-row {" ++ nl
  ++ lit "        justify-content: stretch;" ++ nl
  ++ lit "      }" ++ nl
  ++ nl
  ++ lit "      .combat-button {" ++ nl
  ++ lit "        flex-basis: calc(50% - 12px);" ++ nl
  ++ lit "      }" ++ nl
  ++ nl
  ++ lit "      .status-button {" ++ nl
  ++ lit "        flex-basis: calc(50% - 12px);" ++ nl
  ++ lit "      }" ++ nl
  ++ lit "    }" ++ nl
  ++ nl
  ++ lit "    @media (max-width: 480px) {" ++ nl
  ++ lit "      .combat-button {" ++ nl
  ++ lit "        flex-basis: 100%;" ++ nl
  ++ lit "      }" ++ nl
  ++ nl
  ++ lit "      .status-button {" ++ nl
  ++ lit "        flex-basis: 100%;" ++ nl
  ++ lit "      }" ++ nl
  ++ lit "    }" ++ nl.

(** [old_block] (tmp_modify.py, line 223): the [game-info] panel that is searched for. *)
Definition old_block : str :=
  lit "      <div class=" ++ dq ++ lit "game-info" ++ dq ++ lit " data-game-info>" ++ nl
  ++ lit "        <span>Status: <strong data-game-status>Idle</strong></span>" ++ nl
  ++ lit "        <span>Position: <strong data-game-coords>0, 0</strong></span>" ++ nl
  ++ lit "        <button type=" ++ dq ++ lit "button" ++ dq ++ lit " class=" ++ dq ++ lit "game-info-button" ++ dq ++ lit " data-center-player>Center Player</button>" ++ nl
  ++ lit "      </div>" ++ nl
  ++ lit "    </section>".

(** [new_markup] (tmp_modify.py, line 225): the panel followed by the combat controls,
    the telemetry cards and the status-effect sandbox. *)
Definition new_markup : str :=
  lit "      <div class=" ++ dq ++ lit "game-info" ++ dq ++ lit " data-game-info>" ++ nl
  ++ lit "        <span>Status: <strong data-game-status>Idle</strong></span>" ++ nl
  ++ lit "        <span>Position: <strong data-game-coords>0, 0</strong></span>" ++ nl
  ++ lit "        <button type=" ++ dq ++ lit "button" ++ dq ++ lit " class=" ++ dq ++ lit "game-info-button" ++ dq ++ lit " data-center-player>Center Player</button>" ++ nl
  ++ lit "      </div>" ++ nl
  ++ lit "      <div class=" ++ dq ++ lit "combat-controls" ++ dq ++ lit " data-combat-controls>" ++ nl
  ++ lit "        <div class=" ++ dq ++ lit "control-row" ++ dq ++ lit ">" ++ nl
  ++ lit "          <button type=" ++ dq ++ lit "button" ++ dq ++ lit " class=" ++ dq ++ lit "combat-button" ++ dq ++ lit " data-combat-button=" ++ dq ++ lit "light" ++ dq ++ lit ">" ++ nl
  ++ lit "            <strong>Light Attack</strong>" ++ nl
  ++ lit "            <span>J / 1</span>" ++ nl
  ++ lit "          </button>" ++ nl
  ++ lit "          <button type=" ++ dq ++ lit "button" ++ dq ++ lit " class=" ++ dq ++ lit "combat-button" ++ dq ++ lit " data-combat-button=" ++ dq ++ lit "heavy" ++ dq ++ lit ">" ++ nl
  ++ lit "            <strong>Heavy Attack</strong>" ++ nl
  ++ lit "            <span>K / 2</span>" ++ nl
  ++ lit "          </button>" ++ nl
  ++ lit "          <button type=" ++ dq ++ lit "button" ++ dq ++ lit " class=" ++ dq ++ lit "combat-button" ++ dq ++ lit " data-combat-button=" ++ dq ++ lit "special" ++ dq ++ lit ">" ++ nl
  ++ lit "            <strong>Special</strong>" ++ nl
  ++ lit "            <span>L / 5</span>" ++ nl
  ++ lit "          </button>" ++ nl
  ++ lit "        </div>" ++ nl
  ++ lit "        <div class=" ++ dq ++ lit "control-row" ++ dq ++ lit ">" ++ nl
  ++ lit "          <button type=" ++ dq ++ lit "button" ++ dq ++ lit " class=" ++ dq ++ lit "combat-button" ++ dq ++ lit " data-combat-button=" ++ dq ++ lit "block" ++ dq ++ lit " data-holdable=" ++ dq ++ lit "true" ++ dq ++ lit ">" ++ nl
  ++ lit "            <strong>Block / Parry</strong>" ++ nl
  ++ lit "            <span>Shift / 3</span>" ++ nl
  ++ lit "          </button>" ++ nl
  ++ lit "          <button type=" ++ dq ++ lit "button" ++ dq ++ lit " class=" ++ dq ++ lit "combat-button" ++ dq ++ lit " data-combat-button=" ++ dq ++ lit "roll" ++ dq ++ lit ">" ++ nl
  ++ lit "            <strong>Roll</strong>" ++ nl
  ++ lit "            <span>Ctrl / 4</span>" ++ nl
  ++ lit "          </button>" ++ nl
  ++ lit "          <button type=" ++ dq ++ lit "button" ++ dq ++ lit " class=" ++ dq ++ lit "combat-button" ++ dq ++ lit " data-combat-button=" ++ dq ++ lit "parry" ++ dq ++ lit ">" ++ nl
  ++ lit "            <strong>Parry Counter</strong>" ++ nl
  ++ lit "            <span>During Block</span>" ++ nl
  ++ lit "          </button>" ++ nl
  ++ lit "        </div>" ++ nl
  ++ lit "      </div>" ++ nl
  ++ lit "      <div class=" ++ dq ++ lit "combat-telemetry" ++ dq ++ lit " data-combat-telemetry>" ++ nl
  ++ lit "        <article class=" ++ dq ++ lit "telemetry-card" ++ dq ++ lit ">" ++ nl
  ++ lit "          <h3>Attack &amp; Flow</h3>" ++ nl
  ++ lit "          <ul class=" ++ dq ++ lit "telemetry-list" ++ dq ++ lit ">" ++ nl
  ++ lit "            <li class=" ++ dq ++ lit "telemetry-row" ++ dq ++ lit "><span class=" ++ dq ++ lit "telemetry-label" ++ dq ++ lit ">Attack State</span><span class=" ++ dq ++ lit "telemetry-value" ++ dq ++ lit " data-attack-state>Offline</span></li>" ++ nl
  ++ lit "            <li class=" ++ dq ++ lit "telemetry-row" ++ dq ++ lit "><span class=" ++ dq ++ lit "telemetry-label" ++ dq ++ lit ">State Timer</span><span class=" ++ dq ++ lit "telemetry-value" ++ dq ++ lit " data-attack-timer>0.00s</span></li>" ++ nl
  ++ lit "            <li class=" ++ dq ++ lit "telemetry-row" ++ dq ++ lit "><span class=" ++ dq ++ lit "telemetry-label" ++ dq ++ lit ">Combo Count</span><span class=" ++ dq ++ lit "telemetry-value" ++ dq ++ lit " data-combo-count>0</span></li>" ++ nl
  ++ lit "            <li class=" ++ dq ++ lit "telemetry-row" ++ dq ++ lit "><span class=" ++ dq ++ lit "telemetry-label" ++ dq ++ lit ">Combo Window</span><span class=" ++ dq ++ lit "telemetry-value" ++ dq ++ lit " data-combo-window>" ++ em_dash ++ lit "</span></li>" ++ nl
  ++ lit "            <li class=" ++ dq ++ lit "telemetry-row" ++ dq ++ lit "><span class=" ++ dq ++ lit "telemetry-label" ++ dq ++ lit ">Counter Ready</span><span class=" ++ dq ++ lit "telemetry-value" ++ dq ++ lit " data-counter-ready>No</span></li>" ++ nl
  ++ lit "            <li class=" ++ dq ++ lit "telemetry-row" ++ dq ++ lit "><span class=" ++ dq ++ lit "telemetry-label" ++ dq ++ lit ">Counter Window</span><span class=" ++ dq ++ lit "telemetry-value" ++ dq ++ lit " data-counter-window>" ++ em_dash ++ lit "</span></li>" ++ nl
  ++ lit "          </ul>" ++ nl
  ++ lit "        </article>" ++ nl
  ++ lit "        <article class=" ++ dq ++ lit "telemetry-card" ++ dq ++ lit ">" ++ nl
  ++ lit "          <h3>Defense &amp; Mobility</h3>" ++ nl
  ++ lit "          <ul class=" ++ dq ++ lit "telemetry-list" ++ dq ++ lit ">" ++ nl
  ++ lit "            <li class=" ++ dq ++ lit "telemetry-row" ++ dq ++ lit "><span class=" ++ dq ++ lit "telemetry-label" ++ dq ++ lit ">Blocking</span><span class=" ++ dq ++ lit "telemetry-value" ++ dq ++ lit " data-block-state>No</span></li>" ++ nl
  ++ lit "            <li class=" ++ dq ++ lit "telemetry-row" ++ dq ++ lit "><span class=" ++ dq ++ lit "telemetry-label" ++ dq ++ lit ">Hyperarmor</span><span class=" ++ dq ++ lit "telemetry-value" ++ dq ++ lit " data-hyperarmor>No</span></li>" ++ nl
  ++ lit "            <li class=" ++ dq ++ lit "telemetry-row" ++ dq ++ lit "><span class=" ++ dq ++ lit "telemetry-label" ++ dq ++ lit ">Armor Value</span><span class=" ++ dq ++ lit "telemetry-value" ++ dq ++ lit " data-armor-value>0</span></li>" ++ nl
  ++ lit "            <li class=" ++ dq ++ lit "telemetry-row" ++ dq ++ lit "><span class=" ++ dq ++ lit "telemetry-label" ++ dq ++ lit ">Roll State</span><span class=" ++ dq ++ lit "telemetry-value" ++ dq ++ lit " data-roll-state>Idle</span></li>" ++ nl
  ++ lit "            <li class=" ++ dq ++ lit "telemetry-row" ++ dq ++ lit "><span class=" ++ dq ++ lit "telemetry-label" ++ dq ++ lit ">Roll Timer</span><span class=" ++ dq ++ lit "telemetry-value" ++ dq ++ lit " data-roll-timer>0.00s</span></li>" ++ nl
  ++ lit "            <li class=" ++ dq ++ lit "telemetry-row" ++ dq ++ lit "><span class=" ++ dq ++ lit "telemetry-label" ++ dq ++ lit ">Stunned</span><span class=" ++ dq ++ lit "telemetry-value" ++ dq ++ lit " data-stun-state>No</span></li>" ++ nl
  ++ lit "            <li class=" ++ dq ++ lit "telemetry-row" ++ dq ++ lit "><span class=" ++ dq ++ lit "telemetry-label" ++ dq ++ lit ">Stun Remaining</span><span class=" ++ dq ++ lit "telemetry-value" ++ dq ++ lit " data-stun-remaining>0.00s</span></li>" ++ nl
  ++ lit "            <li class=" ++ dq ++ lit "telemetry-row" ++ dq ++ lit "><span class=" ++ dq ++ lit "telemetry-label" ++ dq ++ lit ">Speed</span><span class=" ++ dq ++ lit "telemetry-value" ++ dq ++ lit " data-speed>0.00</span></li>" ++ nl
  ++ lit "          </ul>" ++ nl
  ++ lit "        </article>" ++ nl
  ++ lit "        <article class=" ++ dq ++ lit "telemetry-card" ++ dq ++ lit ">" ++ nl
  ++ lit "          <h3>Status &amp; Environment</h3>" ++ nl
  ++ lit "          <ul class=" ++ dq ++ lit "telemetry-list" ++ dq ++ lit ">" ++ nl
  ++ lit "            <li class=" ++ dq ++ lit "telemetry-row" ++ dq ++ lit "><span class=" ++ dq ++ lit "telemetry-label" ++ dq ++ lit ">Active Effects</span><span class=" ++ dq ++ lit "telemetry-value" ++ dq ++ lit " data-status-count>0</span></li>" ++ nl
  ++ lit "            <li class=" ++ dq ++ lit "telemetry-row" ++ dq ++ lit "><span class=" ++ dq ++ lit "telemetry-label" ++ dq ++ lit ">Move Modifier</span><span class=" ++ dq ++ lit "telemetry-value" ++ dq ++ lit " data-status-move>1.00" ++ times_sign ++ lit "</span></li>" ++ nl
  ++ lit "            <li class=" ++ dq ++ lit "telemetry-row" ++ dq ++ lit "><span class=" ++ dq ++ lit "telemetry-label" ++ dq ++ lit ">Damage Modifier</span><span class=" ++ dq ++ lit "telemetry-value" ++ dq ++ lit " data-status-damage>1.00" ++ times_sign ++ lit "</span></li>" ++ nl
  ++ lit "            <li class=" ++ dq ++ lit "telemetry-row" ++ dq ++ lit "><span class=" ++ dq ++ lit "telemetry-label" ++ dq ++ lit ">Defense Modifier</span><span class=" ++ dq ++ lit "telemetry-value" ++ dq ++ lit " data-status-defense>1.00" ++ times_sign ++ lit "</span></li>" ++ nl
  ++ lit "            <li class=" ++ dq ++ lit "telemetry-row" ++ dq ++ lit "><span class=" ++ dq ++ lit "telemetry-label" ++ dq ++ lit ">Near Wall</span><span class=" ++ dq ++ lit "telemetry-value" ++ dq ++ lit " data-wall-state>No</span></li>" ++ nl
  ++ lit "            <li class=" ++ dq ++ lit "telemetry-row" ++ dq ++ lit "><span class=" ++ dq ++ lit "telemetry-label" ++ dq ++ lit ">Wall Distance</span><span class=" ++ dq ++ lit "telemetry-value" ++ dq ++ lit " data-wall-distance>" ++ em_dash ++ lit "</span></li>" ++ nl
  ++ lit "            <li class=" ++ dq ++ lit "telemetry-row" ++ dq ++ lit "><span class=" ++ dq ++ lit "telemetry-label" ++ dq ++ lit ">Near Ledge</span><span class=" ++ dq ++ lit "telemetry-value" ++ dq ++ lit " data-ledge-state>No</span></li>" ++ nl
  ++ lit "            <li class=" ++ dq ++ lit "telemetry-row" ++ dq ++ lit "><span class=" ++ dq ++ lit "telemetry-label" ++ dq ++ lit ">Ledge Distance</span><span class=" ++ dq ++ lit "telemetry-value" ++ dq ++ lit " data-ledge-distance>" ++ em_dash ++ lit "</span></li>" ++ nl
  ++ lit "          </ul>" ++ nl
  ++ lit "        </article>" ++ nl
  ++ lit "      </div>" ++ nl
  ++ lit "      <div class=" ++ dq ++ lit "status-effect-controls" ++ dq ++ lit ">" ++ nl
  ++ lit "        <h3>Status Effect Sandbox</h3>" ++ nl
  ++ lit "        <p>Send quick status effect samples to the WASM combat layer and watch the telemetry respond. Everything uses the live exports outlined in GUIDELINES/FIGHT.</p>" ++ nl
  ++ lit "        <div class=" ++ dq ++ lit "status-buttons" ++ dq ++ lit ">" ++ nl
  ++ lit "          <button type=" ++ dq ++ lit "button" ++ dq ++ lit " class=" ++ dq ++ lit "status-button" ++ dq ++ lit " data-status-action=" ++ dq ++ lit "burning" ++ dq ++ lit ">Apply Burning</button>" ++ nl
  ++ lit "          <button type=" ++ dq ++ lit "button" ++ dq ++ lit " class=" ++ dq ++ lit "status-button" ++ dq ++ lit " data-status-action=" ++ dq ++ lit "stun" ++ dq ++ lit ">Apply Stun</button>" ++ nl
  ++ lit "          <button type=" ++ dq ++ lit "button" ++ dq ++ lit " class=" ++ dq ++ lit "status-button" ++ dq ++ lit " data-status-action=" ++ dq ++ lit "slow" ++ dq ++ lit ">Apply Slow</button>" ++ nl
  ++ lit "          <button type=" ++ dq ++ lit "button" ++ dq ++ lit " class=" ++ dq ++ lit "status-button" ++ dq ++ lit " data-status-action=" ++ dq ++ lit "boost" ++ dq ++ lit ">Apply Damage Boost</button>" ++ nl
  ++ lit "          <button type=" ++ dq ++ lit "button" ++ dq ++ lit " class=" ++ dq ++ lit "status-button" ++ dq ++ lit " data-status-action=" ++ dq ++ lit "clear" ++ dq ++ lit ">Clear Demo Effects</button>" ++ nl
  ++ lit "        </div>" ++ nl
  ++ lit "      </div>" ++ nl
  ++ lit "    </section>".

Definition marker : str := lit "combat-controls".
Definition style_anchor : str := lit "  </style>".
Definition diagnostic : string := "Could not locate combat insertion point".

(** Lines 220-221: the guarded insertion of the style rules. *)
Definition inject_style (text : str) : str :=
  if negb (contains marker text)
  then replace text style_anchor (css_insert ++ nl ++ nl ++ style_anchor)
  else text.

(** Lines 227-230: the replacement of the panel, or the abort. *)
Definition replace_block (text : str) : result str :=
  if contains old_block text
  then Ok (replace text old_block new_markup)
  else Raise (SystemExit diagnostic).

(** The two steps on the text, lines 220-230. *)
Definition patch (text : str) : result str :=
  replace_block (inject_style text).

(** The whole script, lines 2-232. *)
Definition tmp_modify : IO unit :=
  name_Path ;;;
  text <- read_text path ;;
  text' <- lift (patch text) ;;
  write_text path text'.

(** * Notions used in the statements *)

(** [sub] occurs in [s] at index [i]. *)
Definition occurs_at (sub s : str) (i : nat) : Prop :=
  exists pre post, s = pre ++ sub ++ post /\ length pre = i.

(** [i] is the lowest index [>= start] at which [sub] occurs in [s]. *)
Definition first_at (sub s : str) (start i : nat) : Prop :=
  start <= i /\ occurs_at sub s i /\
  forall j, start <= j -> j < i -> ~ occurs_at sub s j.

(** A non-empty proper suffix of [a] is a prefix of [b]. *)
Definition overlapb (a b : str) : bool :=
  existsb (fun k => startswith b (skipn k a)) (seq 1 (length a - 1)).

(** No occurrence of [w] can share a character with an occurrence of [c]:
    [w] is no longer than [c], does not occur inside it, and neither word
    ends with a beginning of the other. *)
Definition disjointb (w c : str) : bool :=
  (length w <=? length c) && negb (contains w c)
  && negb (overlapb w c) && negb (overlapb c w).

(** Sample stores for the two scripts. *)
Definition demo_store (host script : str) : world :=
  World (fun q => if String.eqb q html_path then Some host
                  else if String.eqb q script_path then Some script else None)
        FileNotFoundError [].

Definition index_store (doc : str) : world :=
  World (fun q => if String.eqb q path then Some doc else None)
        FileNotFoundError [].

(** The document of the specification's scenario. *)
Definition scenario_doc : str :=
  lit "<style>" ++ nl ++ lit "body{}" ++ nl ++ lit "</style>".

(** The style injection as the specification words it: the style rules are put immediately
    before the first [</style>] of the document, and nowhere else. *)
Definition inserts_before_first_style_close (doc : str) : Prop :=
  forall i, first_at (lit "</style>") doc 0 i ->
    inject_style doc = slice_to doc i ++ css_insert ++ slice_from doc i.

(** The replacement as the specification words it: the first occurrence of the panel is
    replaced and the text around it is kept as it is. *)
Definition replaces_first_block_only (doc : str) : Prop :=
  forall i, first_at old_block doc 0 i ->
    replace_block doc =
      Ok (slice_to doc i ++ new_markup ++ slice_from doc (i + length old_block)).

(** A document with the marker in its markup, the anchor, and no style rules. *)
Definition marked_doc : str :=
  lit "<style>" ++ nl ++ style_anchor ++ nl
  ++ lit "<div class=" ++ dq ++ marker ++ dq ++ lit "></div>".


(** The text line 221 puts in place of the anchor. *)
Definition style_block : str := css_insert ++ nl ++ nl ++ style_anchor.

(** A module script element around [body]. *)
Definition script_element (body : str) : str := open_tag ++ body ++ close_tag.

(** The line both [old_block] and [new_markup] end with, the part of
    [old_block] before it, and what [new_markup] holds between the two. *)
Definition section_close : str := lit "    </section>".
Definition panel_head : str :=
  slice_to old_block (length old_block - length section_close).
Definition added_markup : str :=
  slice_from (slice_to new_markup (length new_markup - length section_close))
             (length panel_head).

(** A store without any file. *)
Definition empty_store : world := World (fun _ => None) FileNotFoundError [].

(** * Properties of the string operations *)

(** The operations on the examples of the Python documentation. *)
Example find_example :
  find (lit "hello") (lit "l") = Some 2 /\
  find_from (lit "hello") (lit "l") 3 = Some 3 /\
  find_from (lit "hello") (lit "l") 4 = None /\
  index (lit "hello") (lit "z") 0 = Raise (ValueError "substring not found").
Proof. repeat split. Qed.

Example replace_example :
  replace (lit "abcabc") (lit "bc") (lit "X") = lit "aXaX" /\
  replace (lit "aaa") (lit "aa") (lit "b") = lit "ba" /\
  replace (lit "ab") [] (lit "-") = lit "-a-b-" /\
  replace (lit "ab") (lit "c") (lit "X") = lit "ab".
Proof. repeat split. Qed.

Example join_example :
  join (lit ", ") [lit "a"; lit "b"; lit "c"] = lit "a, b, c" /\
  contains (lit "b, ") (lit "a, b, c") = true /\
  occurrences (lit "aa") (lit "aaa") = 2.
Proof. repeat split. Qed.

Section StrFacts.

Implicit Types s sub old new pre post : str.

Lemma startswith_iff s sub :
  startswith s sub = true <-> exists post, s = sub ++ post.
Proof.
  revert s; induction sub as [|a sub IH]; intros s.
  - destruct s; simpl; (split; [intros _; eexists; reflexivity | reflexivity]).
  - destruct s as [|b s]; simpl.
    + split; [discriminate | intros [post H]; discriminate].
    + rewrite andb_true_iff, N.eqb_eq, IH. split.
      * intros [-> [post ->]]. now exists post.
      * intros [post H]. injection H as -> ->. split; [reflexivity | now exists post].
Qed.

Lemma startswith_nil s : startswith s [] = true.
Proof. now destruct s. Qed.

Lemma occurs_at_0 sub s : occurs_at sub s 0 <-> startswith s sub = true.
Proof.
  rewrite startswith_iff. split.
  - intros (pre & post & -> & Hl). destruct pre; [now exists post | discriminate].
  - intros [post ->]. now exists [], post.
Qed.

Lemma occurs_at_S sub c s i : occurs_at sub (c :: s) (S i) <-> occurs_at sub s i.
Proof.
  split.
  - intros (pre & post & H & Hl). destruct pre as [|b pre]; [discriminate|].
    injection H as -> ->. injection Hl as Hl. now exists pre, post.
  - intros (pre & post & -> & Hl). exists (c :: pre), post. simpl. now rewrite Hl.
Qed.

Lemma occurs_at_nil sub i : ~ occurs_at sub [] (S i).
Proof. intros (pre & post & H & Hl). destruct pre; discriminate. Qed.

Lemma occurs_at_bound sub s i : occurs_at sub s i -> i + length sub <= length s.
Proof.
  intros (pre & post & -> & <-). rewrite !length_app. lia.
Qed.

Lemma occurs_at_skipn sub s n i :
  n <= length s -> (occurs_at sub (skipn n s) i <-> occurs_at sub s (n + i)).
Proof.
  revert s; induction n as [|n IH]; intros s Hn.
  - reflexivity.
  - destruct s as [|c s]; [simpl in Hn; lia|].
    simpl in Hn. cbn [skipn Nat.add]. rewrite occurs_at_S. apply IH. lia.
Qed.

Lemma find_None s sub :
  find s sub = None <-> forall i, ~ occurs_at sub s i.
Proof.
  induction s as [|c s IH]; cbn [find].
  - destruct (startswith [] sub) eqn:E.
    + split; [discriminate|]. intros H. exfalso. apply (H 0). now apply occurs_at_0.
    + split; [|reflexivity]. intros _ [|i].
      * rewrite occurs_at_0. congruence.
      * apply occurs_at_nil.
  - destruct (startswith (c :: s) sub) eqn:E.
    + split; [discriminate|]. intros H. exfalso. apply (H 0). now apply occurs_at_0.
    + destruct (find s sub) as [k|] eqn:F; simpl.
      * split; [discriminate|]. intros H.
        assert (N : Some k <> None) by discriminate.
        exfalso. apply N, IH. intros i Hi. apply (H (S i)). now apply occurs_at_S.
      * split; [|reflexivity]. intros _ [|i].
        -- rewrite occurs_at_0. congruence.
        -- rewrite occurs_at_S. now apply IH.
Qed.

Lemma find_first s sub i : find s sub = Some i -> first_at sub s 0 i.
Proof.
  unfold first_at. revert i; induction s as [|c s IH]; intros i; cbn [find].
  - destruct (startswith [] sub) eqn:E; [|discriminate].
    intros [= <-]. repeat split; [lia | now apply occurs_at_0 | lia].
  - destruct (startswith (c :: s) sub) eqn:E.
    + intros [= <-]. repeat split; [lia | now apply occurs_at_0 | lia].
    + destruct (find s sub) as [k|] eqn:F; simpl; [|discriminate].
      intros [= <-]. destruct (IH k eq_refl) as (_ & Ho & Hm).
      repeat split; [lia | now apply occurs_at_S |].
      intros [|j] _ Hj; [rewrite occurs_at_0; congruence|].
      rewrite occurs_at_S. apply Hm; lia.
Qed.

Lemma first_at_unique sub s start i j :
  first_at sub s start i -> first_at sub s start j -> i = j.
Proof.
  intros (Hi & Oi & Mi) (Hj & Oj & Mj).
  destruct (Nat.lt_trichotomy i j) as [L|[L|L]]; [|assumption|].
  - exfalso. now apply (Mj i).
  - exfalso. now apply (Mi j).
Qed.

Lemma find_Some s sub i : find s sub = Some i <-> first_at sub s 0 i.
Proof.
  split; [apply find_first|]. intros H.
  destruct (find s sub) as [k|] eqn:F.
  - f_equal. apply find_first in F. eapply first_at_unique; eassumption.
  - exfalso. destruct H as (_ & Ho & _). revert Ho. now apply find_None.
Qed.

Lemma find_from_Some s sub start i :
  find_from s sub start = Some i <-> first_at sub s start i.
Proof.
  unfold find_from. destruct (Nat.ltb_spec (length s) start) as [L|L].
  - split; [discriminate|]. intros (Hs & Ho & _).
    apply occurs_at_bound in Ho. lia.
  - destruct (find (skipn start s) sub) as [k|] eqn:F; simpl.
    + apply find_first in F. destruct F as (_ & Ho & Hm).
      assert (Fi : first_at sub s start (start + k)).
      { repeat split; [lia | now apply occurs_at_skipn |].
        intros j Hj Hjk Hoj. apply (Hm (j - start)); [lia | lia |].
        apply occurs_at_skipn; [assumption|]. now replace (start + (j - start)) with j by lia. }
      split.
      * now intros [= <-].
      * intros H. f_equal. eapply first_at_unique; eassumption.
    + split; [discriminate|]. intros (Hs & Ho & _). exfalso.
      rewrite find_None in F. apply (F (i - start)).
      apply occurs_at_skipn; [assumption|]. now replace (start + (i - start)) with i by lia.
Qed.

Lemma find_from_None s sub start :
  find_from s sub start = None <-> forall i, start <= i -> ~ occurs_at sub s i.
Proof.
  split.
  - unfold find_from. destruct (Nat.ltb_spec (length s) start) as [L|L].
    + intros _ i Hi Ho. apply occurs_at_bound in Ho. lia.
    + destruct (find (skipn start s) sub) as [k|] eqn:F; [discriminate|].
      intros _ i Hi Ho. rewrite find_None in F. apply (F (i - start)).
      apply occurs_at_skipn; [assumption|]. now replace (start + (i - start)) with i by lia.
  - intros H. destruct (find_from s sub start) as [n|] eqn:F; [|reflexivity].
    apply find_from_Some in F. destruct F as (Hs & Ho & _). now apply H in Ho.
Qed.

Lemma occurs_at_split sub s i :
  occurs_at sub s i ->
  s = firstn i s ++ sub ++ skipn (i + length sub) s.
Proof.
  intros (pre & post & -> & <-).
  rewrite firstn_app, Nat.sub_diag, firstn_all, app_nil_r. f_equal.
  rewrite skipn_app, skipn_all2 by lia.
  replace (length pre + length sub - length pre) with (length sub) by lia.
  rewrite skipn_app, skipn_all, Nat.sub_diag. reflexivity.
Qed.

Lemma contains_true sub s :
  contains sub s = true <-> exists pre post, s = pre ++ sub ++ post.
Proof.
  unfold contains. destruct (find s sub) as [i|] eqn:F.
  - split; [intros _|reflexivity]. apply find_first in F.
    destruct F as (_ & (pre & post & -> & _) & _). now exists pre, post.
  - split; [discriminate|]. intros (pre & post & ->). exfalso.
    rewrite find_None in F. apply (F (length pre)). now exists pre, post.
Qed.

Lemma contains_false sub s :
  contains sub s = false <-> forall pre post, s <> pre ++ sub ++ post.
Proof.
  rewrite <- not_true_iff_false, contains_true. split.
  - intros H pre post E. apply H. now exists pre, post.
  - intros H (pre & post & E). now apply (H pre post).
Qed.

Lemma contains_find_None sub s : contains sub s = false <-> find s sub = None.
Proof. unfold contains. destruct (find s sub); split; congruence. Qed.

Lemma contains_app_l sub s t : contains sub s = true -> contains sub (s ++ t) = true.
Proof.
  rewrite !contains_true. intros (pre & post & ->).
  exists pre, (post ++ t). now rewrite <- !app_assoc.
Qed.

Lemma contains_app_r sub s t : contains sub t = true -> contains sub (s ++ t) = true.
Proof.
  rewrite !contains_true. intros (pre & post & ->).
  exists (s ++ pre), post. now rewrite <- !app_assoc.
Qed.

Lemma contains_refl s : contains s s = true.
Proof. apply contains_true. exists [], []. now rewrite app_nil_r. Qed.

Lemma contains_trans a b c :
  contains a b = true -> contains b c = true -> contains a c = true.
Proof.
  rewrite !contains_true. intros (p1 & q1 & ->) (p2 & q2 & ->).
  exists (p2 ++ p1), (q1 ++ q2). now rewrite <- !app_assoc.
Qed.

(** The first occurrence as a decomposition of the string. *)
Lemma first_at_app sub p rest :
  first_at sub (p ++ sub ++ rest) 0 (length p) <->
  forall j, j < length p -> ~ occurs_at sub (p ++ sub ++ rest) j.
Proof.
  split.
  - intros (_ & _ & Hm) j Hj. apply Hm; lia.
  - intros Hm. repeat split; [lia | now exists p, rest |]. intros j _. apply Hm.
Qed.

Lemma first_at_decompose sub s i :
  sub <> [] ->
  first_at sub s 0 i ->
  exists p rest, s = p ++ sub ++ rest /\ length p = i /\ contains sub p = false.
Proof.
  intros Hne (_ & (p & rest & -> & <-) & Hm). exists p, rest. repeat split.
  apply contains_false. intros pre post ->.
  apply (Hm (length pre)); [lia | |].
  - rewrite !length_app. destruct sub; [congruence | simpl; lia].
  - exists pre, (post ++ sub ++ rest). now rewrite <- !app_assoc.
Qed.

(** *** [replace] *)

Lemma replace_scan_skip old new u rest :
  replace_scan old new (u ++ rest) (length u) = replace_scan old new rest 0.
Proof. induction u as [|c u IH]; [reflexivity | exact IH]. Qed.

Lemma replace_scan_miss old new s :
  (forall i, ~ occurs_at old s i) -> replace_scan old new s 0 = s.
Proof.
  induction s as [|c s IH]; intros H; [reflexivity|]. cbn [replace_scan].
  destruct (startswith (c :: s) old) eqn:E.
  - exfalso. apply (H 0). now apply occurs_at_0.
  - f_equal. apply IH. intros i Hi. apply (H (S i)). now apply occurs_at_S.
Qed.

Lemma replace_scan_hit old new p rest :
  old <> [] ->
  first_at old (p ++ old ++ rest) 0 (length p) ->
  replace_scan old new (p ++ old ++ rest) 0 = p ++ new ++ replace_scan old new rest 0.
Proof.
  intros Hne. rewrite first_at_app. induction p as [|c p IH]; intros Hm.
  - destruct old as [|a old]; [congruence|]. cbn [app replace_scan].
    assert (E : startswith ((a :: old) ++ rest) (a :: old) = true)
      by (apply startswith_iff; now exists rest).
    cbn [app] in E. rewrite E. f_equal.
    cbn [length]. rewrite Nat.sub_succ, Nat.sub_0_r. apply replace_scan_skip.
  - cbn [app replace_scan].
    destruct (startswith (c :: p ++ old ++ rest) old) eqn:E.
    + exfalso. apply (Hm 0); [simpl; lia | now apply occurs_at_0].
    + f_equal. apply IH. intros j Hj Ho. apply (Hm (S j)); [simpl; lia|].
      now apply occurs_at_S.
Qed.

Lemma replace_absent s old new : contains old s = false -> replace s old new = s.
Proof.
  intros H. apply contains_find_None in H. destruct old as [|a old].
  - destruct s; discriminate.
  - unfold replace. apply replace_scan_miss. now apply find_None.
Qed.

Lemma replace_first old new p rest :
  old <> [] ->
  first_at old (p ++ old ++ rest) 0 (length p) ->
  replace (p ++ old ++ rest) old new = p ++ new ++ replace rest old new.
Proof.
  intros Hne H. destruct old as [|a old]; [congruence|].
  unfold replace. now apply replace_scan_hit.
Qed.

(** *** Words that cannot overlap *)

Lemma overlapb_false a b l l2 :
  overlapb a b = false -> a = l ++ l2 -> l <> [] -> l2 <> [] ->
  startswith b l2 = false.
Proof.
  intros H -> Hl Hl2. unfold overlapb in H.
  destruct (startswith b l2) eqn:E; [|reflexivity].
  rewrite <- H. symmetry. apply existsb_exists. exists (length l). split.
  - apply in_seq. rewrite length_app.
    destruct l; [congruence|]. destruct l2; [congruence|]. simpl. lia.
  - now rewrite skipn_app, skipn_all, Nat.sub_diag.
Qed.

Lemma disjoint_split w c x y u v :
  disjointb w c = true ->
  x ++ w ++ y = u ++ c ++ v ->
  (exists l, u = x ++ w ++ l /\ y = l ++ c ++ v) \/
  (exists l, x = u ++ c ++ l /\ v = l ++ w ++ y).
Proof.
  unfold disjointb. rewrite !andb_true_iff, !negb_true_iff, Nat.leb_le.
  intros [[[Hlen Hin] Hwc] Hcw] E.
  rewrite contains_false in Hin.
  apply app_eq_app in E. destruct E as [l [[-> E]|[-> E]]].
  - (* the occurrence of [w] starts at or after that of [c] *)
    apply app_eq_app in E. destruct E as [l2 [[-> E]|[-> ->]]].
    + apply app_eq_app in E. destruct E as [l3 [[-> ->]|[-> ->]]].
      * destruct l3 as [|d l3].
        { exfalso. apply (Hin l []). now rewrite !app_nil_r. }
        destruct l2 as [|e l2].
        { right. exists []. now rewrite !app_nil_r. }
        destruct l as [|f l].
        { exfalso. rewrite !length_app in Hlen. simpl in Hlen. lia. }
        exfalso.
        assert (S : startswith ((e :: l2) ++ d :: l3) (e :: l2) = true)
          by (apply startswith_iff; eexists; reflexivity).
        rewrite (overlapb_false _ _ _ _ Hcw eq_refl) in S; [discriminate | discriminate..].
      * exfalso. apply (Hin l l3). reflexivity.
    + right. exists l2. now rewrite <- ?app_assoc.
  - (* the occurrence of [w] starts before that of [c] *)
    apply app_eq_app in E. destruct E as [l2 [[-> E]|[-> ->]]].
    + apply app_eq_app in E. destruct E as [l3 [[-> ->]|[-> ->]]].
      * destruct l as [|d l].
        { exfalso. apply (Hin [] l3). reflexivity. }
        destruct l2 as [|e l2].
        { left. exists []. now rewrite !app_nil_r. }
        exfalso.
        assert (S : startswith ((e :: l2) ++ l3) (e :: l2) = true)
          by (apply startswith_iff; eexists; reflexivity).
        rewrite (overlapb_false _ _ _ _ Hwc eq_refl) in S; [discriminate | discriminate..].
      * exfalso. rewrite !length_app in Hlen.
        destruct l as [|d l]; [|simpl in Hlen; lia].
        destruct l3 as [|d l3]; [|simpl in Hlen; lia].
        apply (Hin [] []). now rewrite !app_nil_r.
    + left. exists l2. now rewrite <- ?app_assoc.
Qed.

(** An occurrence of [w] in [u ++ c ++ v] lies inside [u] or inside [v]. *)
Lemma disjoint_contains w c u v :
  disjointb w c = true ->
  contains w (u ++ c ++ v) = true ->
  contains w u = true \/ contains w v = true.
Proof.
  intros D H. apply contains_true in H. destruct H as (x & y & E). symmetry in E.
  destruct (disjoint_split _ _ _ _ _ _ D E) as [[l [-> _]]|[l [_ ->]]].
  - left. apply contains_true. now exists x, l.
  - right. apply contains_true. now exists l, y.
Qed.

(** *** [replace], occurrence by occurrence *)

Lemma str_length_ind (P : str -> Prop) :
  (forall s, (forall t, length t < length s -> P t) -> P s) -> forall s, P s.
Proof.
  intros H s. remember (length s) as n eqn:Hn. revert s Hn.
  induction n as [n IH] using lt_wf_ind. intros s ->.
  apply H. intros t Ht. now apply (IH (length t)).
Qed.

Lemma disjointb_nonempty w c : disjointb w c = true -> w <> [].
Proof.
  unfold disjointb. rewrite !andb_true_iff, !negb_true_iff.
  intros [[[_ H] _] _] ->. now destruct c.
Qed.

(** Either [old] does not occur and nothing happens, or the text up to the
    first occurrence is kept, [new] is emitted, and the rest is processed. *)
Lemma replace_cases s old new :
  old <> [] ->
  (contains old s = false /\ replace s old new = s) \/
  (exists p rest,
      s = p ++ old ++ rest /\ contains old p = false /\
      length rest < length s /\
      replace s old new = p ++ new ++ replace rest old new).
Proof.
  intros Hne. destruct (find s old) as [i|] eqn:F.
  - right. apply find_Some in F.
    destruct (first_at_decompose _ _ _ Hne F) as (p & rest & -> & <- & Hp).
    exists p, rest. repeat split; [assumption | | now apply replace_first].
    rewrite !length_app. destruct old; [congruence | simpl; lia].
  - left. apply contains_find_None in F. split; [assumption | now apply replace_absent].
Qed.

(** When [old] and [new] cannot overlap, no occurrence of [old] is left. *)
Lemma replace_removes s old new :
  disjointb old new = true -> contains old (replace s old new) = false.
Proof.
  intros D. pose proof (disjointb_nonempty _ _ D) as Hne.
  induction s as [s IH] using str_length_ind.
  destruct (replace_cases s old new Hne) as [[H ->]|(p & rest & -> & Hp & Hl & ->)];
    [assumption|].
  apply not_true_iff_false. intros H.
  apply (disjoint_contains _ _ _ _ D) in H. destruct H as [H|H].
  - congruence.
  - rewrite (IH rest Hl) in H. discriminate.
Qed.

(** Inserting [ins] before the occurrences of [old] creates no occurrence of
    a word [w] that cannot overlap [ins]. *)
Lemma replace_insert_no_new w ins old s t :
  disjointb w ins = true -> old <> [] ->
  contains w (t ++ replace s old (ins ++ old)) = true ->
  contains w (t ++ s) = true.
Proof.
  intros D Hne. revert t. induction s as [s IH] using str_length_ind. intros t.
  destruct (replace_cases s old (ins ++ old) Hne)
    as [[H ->]|(p & rest & -> & Hp & Hl & ->)]; [trivial|].
  intros H.
  replace (t ++ p ++ (ins ++ old) ++ replace rest old (ins ++ old))
    with ((t ++ p) ++ ins ++ (old ++ replace rest old (ins ++ old))) in H
    by now rewrite <- !app_assoc.
  apply (disjoint_contains _ _ _ _ D) in H. destruct H as [H|H].
  - rewrite app_assoc. now apply contains_app_l.
  - apply (IH rest Hl old) in H. rewrite app_assoc. now apply contains_app_r.
Qed.

(** Replacing the occurrences of [a] keeps every occurrence of a word [w]
    that cannot overlap [a]. *)
Lemma replace_keeps a b w s :
  disjointb a w = true ->
  contains w s = true -> contains w (replace s a b) = true.
Proof.
  intros D. pose proof (disjointb_nonempty _ _ D) as Hne.
  induction s as [s IH] using str_length_ind. intros H.
  destruct (replace_cases s a b Hne) as [[_ ->]|(p & rest & E & Hp & Hl & ->)];
    [assumption|].
  apply contains_true in H. destruct H as (x & y & E'). rewrite E in E'.
  destruct (disjoint_split _ _ _ _ _ _ D E') as [[l [-> ->]]|[l [-> ->]]].
  - apply contains_app_r, contains_app_r, IH; [assumption|].
    apply contains_true. now exists l, y.
  - apply contains_app_l. apply contains_true. now exists x, l.
Qed.

(** *** Words that do not overlap themselves *)

Lemma border_free_first old p rest :
  overlapb old old = false -> contains old p = false ->
  first_at old (p ++ old ++ rest) 0 (length p).
Proof.
  intros B Hp. apply first_at_app. intros j Hj (x & y & E & <-).
  rewrite contains_false in Hp. symmetry in E.
  apply app_eq_app in E. destruct E as [l [[-> E]|[-> E]]].
  - rewrite length_app in Hj. lia.
  - destruct l as [|d l]; [rewrite app_nil_r in Hj; lia|].
    apply app_eq_app in E. destruct E as [l2 [[E1 E]|[E1 _]]].
    + destruct l2 as [|e l2].
      { rewrite app_nil_r in E1. apply (Hp x []). now rewrite E1, app_nil_r. }
      assert (S : startswith old (e :: l2) = true).
      { apply app_eq_app in E. destruct E as [l3 [[E2 _]|[E2 _]]].
        - apply startswith_iff. now exists l3.
        - exfalso. apply (f_equal (@length _)) in E1, E2.
          rewrite !length_app in *. simpl in *. lia. }
      rewrite (overlapb_false old old (d :: l) (e :: l2) B) in S;
        [discriminate | assumption | discriminate | discriminate].
    + apply (Hp x l2). now rewrite E1.
Qed.

(** A text cut at the occurrences of a self-overlap-free [old]: replacing
    [old] by [new] swaps the separators and keeps the pieces. *)
Lemma replace_join old new pieces :
  old <> [] -> overlapb old old = false ->
  Forall (fun p => contains old p = false) pieces ->
  replace (join old pieces) old new = join new pieces.
Proof.
  intros Hne B. induction pieces as [|p ps IH]; intros H.
  - destruct old; [congruence | reflexivity].
  - inversion H as [|? ? Hp Hps]; subst. destruct ps as [|q ps].
    + now apply replace_absent.
    + cbn [join] in *. rewrite replace_first; [| assumption | now apply border_free_first].
      now rewrite IH.
Qed.

(** Every text is cut into such pieces by the occurrences of [old]. *)
Lemma join_exists old s :
  old <> [] ->
  exists pieces, s = join old pieces /\ pieces <> [] /\
                 Forall (fun p => contains old p = false) pieces.
Proof.
  intros Hne. induction s as [s IH] using str_length_ind.
  destruct (replace_cases s old [] Hne) as [[H _]|(p & rest & -> & Hp & Hl & _)].
  - exists [s]. repeat split; [discriminate | now constructor].
  - destruct (IH rest Hl) as (ps & -> & Hn & Hf).
    exists (p :: ps). repeat split; [| discriminate | now constructor].
    destruct ps; [congruence | reflexivity].
Qed.

Lemma first_at_exists sub s start k :
  occurs_at sub s k -> start <= k ->
  exists i, first_at sub s start i /\ i <= k.
Proof.
  intros Ho Hk. destruct (find_from s sub start) as [i|] eqn:F.
  - apply find_from_Some in F. exists i. split; [assumption|].
    destruct F as (Hs & _ & Hm). destruct (Nat.le_gt_cases i k) as [L|L]; [assumption|].
    exfalso. now apply (Hm k).
  - exfalso. rewrite find_from_None in F. now apply (F k).
Qed.

Lemma firstn_app_exact (p r : str) : firstn (length p) (p ++ r) = p.
Proof. now rewrite firstn_app, Nat.sub_diag, firstn_all, app_nil_r. Qed.

Lemma skipn_app_exact (p r : str) : skipn (length p) (p ++ r) = r.
Proof. now rewrite skipn_app, skipn_all, Nat.sub_diag. Qed.

End StrFacts.

(** * The scripts *)

(** ** Facts about the literals, by evaluation *)

Lemma old_block_new_markup_disjoint : disjointb old_block new_markup = true.
Proof. vm_compute. reflexivity. Qed.

Lemma old_block_css_disjoint : disjointb old_block (css_insert ++ nl ++ nl) = true.
Proof. vm_compute. reflexivity. Qed.

Lemma style_anchor_old_block_disjoint : disjointb style_anchor old_block = true.
Proof. vm_compute. reflexivity. Qed.

Lemma old_block_border_free : overlapb old_block old_block = false.
Proof. vm_compute. reflexivity. Qed.

Lemma style_anchor_border_free : overlapb style_anchor style_anchor = false.
Proof. vm_compute. reflexivity. Qed.

Lemma marker_in_css_insert : contains marker css_insert = true.
Proof. vm_compute. reflexivity. Qed.

Lemma marker_in_new_markup : contains marker new_markup = true.
Proof. vm_compute. reflexivity. Qed.

Lemma close_open_disjoint : disjointb close_tag open_tag = true.
Proof. vm_compute. reflexivity. Qed.

Lemma old_block_nonempty : old_block <> [].
Proof. apply (disjointb_nonempty _ _ old_block_new_markup_disjoint). Qed.

Lemma style_anchor_nonempty : style_anchor <> [].
Proof. apply (disjointb_nonempty _ _ style_anchor_old_block_disjoint). Qed.

(** The literals are not to be unfolded by the tactics below. *)
Opaque css_insert old_block new_markup.

(** The text put in place of [style_anchor], as an insertion before it. *)
Lemma style_block_assoc :
  css_insert ++ nl ++ nl ++ style_anchor = (css_insert ++ nl ++ nl) ++ style_anchor.
Proof.
  rewrite (app_assoc nl nl style_anchor).
  now rewrite (app_assoc css_insert (nl ++ nl) style_anchor).
Qed.

(** ** The style injection *)

Lemma inject_style_marker text :
  contains marker text = true -> inject_style text = text.
Proof. unfold inject_style. now intros ->. Qed.

Lemma inject_style_no_marker text :
  contains marker text = false ->
  inject_style text = replace text style_anchor (css_insert ++ nl ++ nl ++ style_anchor).
Proof. unfold inject_style. now intros ->. Qed.

Lemma inject_style_no_anchor text :
  contains style_anchor text = false -> inject_style text = text.
Proof.
  intros H. unfold inject_style. destruct (contains marker text); [reflexivity|].
  now apply replace_absent.
Qed.

(** The step changes nothing, or it has put the style rules in. *)
Lemma inject_style_cases text :
  inject_style text = text \/
  (contains marker text = false /\ contains style_anchor text = true /\
   contains (css_insert ++ nl ++ nl ++ style_anchor) (inject_style text) = true).
Proof.
  destruct (contains marker text) eqn:M; [left; now apply inject_style_marker|].
  rewrite (inject_style_no_marker _ M).
  destruct (replace_cases text style_anchor (css_insert ++ nl ++ nl ++ style_anchor)
              style_anchor_nonempty) as [[_ ->]|(p & rest & E & _ & _ & ->)];
    [now left | right].
  repeat split.
  - rewrite E. apply contains_true. now exists p, rest.
  - apply contains_app_r, contains_app_l, contains_refl.
Qed.

Lemma marker_in_style_block :
  contains marker (css_insert ++ nl ++ nl ++ style_anchor) = true.
Proof. apply contains_app_l, marker_in_css_insert. Qed.

Lemma inject_style_idempotent text :
  inject_style (inject_style text) = inject_style text.
Proof.
  destruct (inject_style_cases text) as [E|(_ & _ & H)]; [now rewrite !E|].
  apply inject_style_marker.
  exact (contains_trans _ _ _ marker_in_style_block H).
Qed.

(** The style rules bring no [game-info] panel with them. *)
Lemma inject_style_no_new_block text :
  contains old_block text = false -> contains old_block (inject_style text) = false.
Proof.
  intros H. unfold inject_style. destruct (contains marker text); cbn [negb]; [assumption|].
  rewrite style_block_assoc.
  apply not_true_iff_false. intros C.
  apply (replace_insert_no_new old_block (css_insert ++ nl ++ nl) style_anchor text [])
    in C; [| exact old_block_css_disjoint | exact style_anchor_nonempty].
  cbn [app] in C. congruence.
Qed.

(** A [game-info] panel survives the injection of the style rules. *)
Lemma inject_style_keeps_block text :
  contains old_block text = true -> contains old_block (inject_style text) = true.
Proof.
  intros H. unfold inject_style. destruct (contains marker text); cbn [negb]; [assumption|].
  now apply replace_keeps; [exact style_anchor_old_block_disjoint|].
Qed.

(** ** The replacement of the panel *)

Lemma replace_block_found text :
  contains old_block text = true ->
  replace_block text = Ok (replace text old_block new_markup).
Proof. unfold replace_block. now intros ->. Qed.

Lemma replace_block_missing text :
  contains old_block text = false ->
  replace_block text = Raise (SystemExit diagnostic).
Proof. unfold replace_block. now intros ->. Qed.

Lemma replaced_has_no_block text :
  contains old_block (replace text old_block new_markup) = false.
Proof. apply replace_removes, old_block_new_markup_disjoint. Qed.

Lemma replaced_has_marker text :
  contains old_block text = true ->
  contains marker (replace text old_block new_markup) = true.
Proof.
  intros H.
  destruct (replace_cases text old_block new_markup old_block_nonempty)
    as [[N _]|(p & rest & _ & _ & _ & ->)]; [congruence|].
  apply contains_app_r, contains_app_l, marker_in_new_markup.
Qed.

(** ** Running the scripts on a file store *)

Lemma run_rewrite_script w host script :
  files w html_path = Some host -> files w script_path = Some script ->
  rewrite_script w =
    match splice host script with
    | Ok out => (Ok tt, store_after w html_path out)
    | Raise e => (Raise e, w)
    end.
Proof.
  intros Hh Hs. unfold rewrite_script, bind, read_text, lift.
  rewrite Hh, Hs. now destruct (splice host script).
Qed.

(** [tmp_modify.py] stops at line 2, on every store. *)
Lemma run_tmp_modify w :
  tmp_modify w = (Raise (NameError "name 'Path' is not defined"), w).
Proof. reflexivity. Qed.

(** A run that raises leaves the store as it found it. *)
Lemma rewrite_script_raise_keeps_store w e w' :
  rewrite_script w = (Raise e, w') -> w' = w.
Proof.
  unfold rewrite_script, bind, read_text, lift, write_text.
  destruct (files w html_path); [|now intros [= _ <-]].
  destruct (files w script_path); [|now intros [= _ <-]].
  destruct (splice _ _); [discriminate | now intros [= _ <-]].
Qed.

(** Lines 220-230 on a text without the panel. *)
Lemma patch_aborts_without_block doc :
  contains old_block doc = false -> patch doc = Raise (SystemExit diagnostic).
Proof.
  intros H. unfold patch.
  now rewrite (replace_block_missing _ (inject_style_no_new_block _ H)).
Qed.

Lemma files_store_after w p t : files (store_after w p t) p = Some t.
Proof. unfold store_after. cbn [files]. now rewrite String.eqb_refl. Qed.

Lemma index_found s sub start i :
  first_at sub s start i -> index s sub start = Ok i.
Proof. intros H. apply find_from_Some in H. unfold index. now rewrite H. Qed.

Lemma index_missing s sub start :
  (forall i, start <= i -> ~ occurs_at sub s i) ->
  index s sub start = Raise (ValueError "substring not found").
Proof. intros H. apply find_from_None in H. unfold index. now rewrite H. Qed.

(** * The properties of the specification *)

(** ** Script-Splice *)

(** C1. When the host document holds the opening tag, at [i0], and a closing
    tag at or after it, at [j0], the script succeeds.  The host is
    [pre ++ open_tag ++ mid ++ close_tag ++ post], where the first opening tag
    starts at the end of [pre] and the first closing tag at or after it starts
    at the end of [mid]; the document written back is [pre], the replacement
    text as it is, and [post]. *)
Theorem splice_first_span (w : world) (host script : str) (i0 j0 : nat) :
  files w html_path = Some host ->
  files w script_path = Some script ->
  occurs_at open_tag host i0 ->
  occurs_at close_tag host j0 ->
  i0 <= j0 ->
  exists pre mid post,
    host = pre ++ open_tag ++ mid ++ close_tag ++ post /\
    first_at open_tag host 0 (length pre) /\
    first_at close_tag host (length pre) (length (pre ++ open_tag ++ mid)) /\
    splice host script = Ok (pre ++ script ++ post) /\
    rewrite_script w = (Ok tt, store_after w html_path (pre ++ script ++ post)) /\
    files (store_after w html_path (pre ++ script ++ post)) html_path
      = Some (pre ++ script ++ post).
Proof.
  intros Hh Hs Ho Hc Hij.
  destruct (first_at_exists _ _ 0 _ Ho (Nat.le_0_l _)) as (i & Fi & Hi).
  destruct (first_at_exists _ _ i _ Hc (Nat.le_trans _ _ _ Hi Hij)) as (j & Fj & _).
  pose proof Fi as (_ & (pre & v & E & Li) & _).
  pose proof Fj as (Hj & (x & post & E' & Lj) & _).
  assert (M : exists mid, x = pre ++ open_tag ++ mid /\ v = mid ++ close_tag ++ post).
  { rewrite E in E'. symmetry in E'.
    destruct (disjoint_split _ _ _ _ _ _ close_open_disjoint E')
      as [[l [U _]]|[l [X V]]].
    - exfalso. apply (f_equal (@length _)) in U. rewrite !length_app in U.
      assert (0 < length close_tag) by (simpl; lia). lia.
    - now exists l. }
  destruct M as (mid & -> & ->). subst i j.
  exists pre, mid, post. split; [exact E|]. split; [exact Fi|]. split; [exact Fj|].
  assert (R : splice host script = Ok (pre ++ script ++ post)).
  { unfold splice. rewrite (index_found _ _ _ _ Fi), (index_found _ _ _ _ Fj).
    unfold slice_to, slice_from. rewrite <- length_app. rewrite E at 1 2.
    rewrite firstn_app_exact.
    replace (pre ++ open_tag ++ mid ++ close_tag ++ post)
      with (((pre ++ open_tag ++ mid) ++ close_tag) ++ post)
      by now rewrite <- !app_assoc.
    now rewrite skipn_app_exact. }
  split; [exact R|]. split; [|apply files_store_after].
  now rewrite (run_rewrite_script _ _ _ Hh Hs), R.
Qed.

Lemma splice_first_span_witness :
  exists pre mid post,
    lit "<p>" ++ open_tag ++ lit "x" ++ close_tag ++ lit "</p>"
      = pre ++ open_tag ++ mid ++ close_tag ++ post /\
    first_at open_tag
      (lit "<p>" ++ open_tag ++ lit "x" ++ close_tag ++ lit "</p>") 0 (length pre) /\
    first_at close_tag
      (lit "<p>" ++ open_tag ++ lit "x" ++ close_tag ++ lit "</p>")
      (length pre) (length (pre ++ open_tag ++ mid)) /\
    splice (lit "<p>" ++ open_tag ++ lit "x" ++ close_tag ++ lit "</p>") (lit "<b>")
      = Ok (pre ++ lit "<b>" ++ post) /\
    rewrite_script
      (demo_store (lit "<p>" ++ open_tag ++ lit "x" ++ close_tag ++ lit "</p>") (lit "<b>"))
      = (Ok tt,
         store_after
           (demo_store (lit "<p>" ++ open_tag ++ lit "x" ++ close_tag ++ lit "</p>")
              (lit "<b>"))
           html_path (pre ++ lit "<b>" ++ post)) /\
    files
      (store_after
         (demo_store (lit "<p>" ++ open_tag ++ lit "x" ++ close_tag ++ lit "</p>")
            (lit "<b>"))
         html_path (pre ++ lit "<b>" ++ post)) html_path
      = Some (pre ++ lit "<b>" ++ post).
Proof.
  apply (splice_first_span
           (demo_store (lit "<p>" ++ open_tag ++ lit "x" ++ close_tag ++ lit "</p>") (lit "<b>"))
           (lit "<p>" ++ open_tag ++ lit "x" ++ close_tag ++ lit "</p>") (lit "<b>") 3 26).
  - reflexivity.
  - reflexivity.
  - exists (lit "<p>"), (lit "x" ++ close_tag ++ lit "</p>"). split; reflexivity.
  - exists (lit "<p>" ++ open_tag ++ lit "x"), (lit "</p>"). split; reflexivity.
  - lia.
Defined.

(** C6. A host document without the opening tag: the first lookup raises the
    [ValueError] of [str.index], nothing is written, and the store is the one
    the script started from. *)
Theorem splice_missing_open_tag (w : world) (host script : str) :
  files w html_path = Some host ->
  files w script_path = Some script ->
  contains open_tag host = false ->
  splice host script = Raise (ValueError "substring not found") /\
  rewrite_script w = (Raise (ValueError "substring not found"), w).
Proof.
  intros Hh Hs Hn.
  assert (E : splice host script = Raise (ValueError "substring not found")).
  { unfold splice. rewrite index_missing; [reflexivity|].
    intros i _ (pre & post & E & _). rewrite contains_false in Hn. now apply (Hn pre post). }
  split; [exact E|]. now rewrite (run_rewrite_script _ _ _ Hh Hs), E.
Qed.

Lemma splice_missing_open_tag_witness :
  splice (lit "<p></p>") (lit "<b>") = Raise (ValueError "substring not found") /\
  rewrite_script (demo_store (lit "<p></p>") (lit "<b>")) =
    (Raise (ValueError "substring not found"), demo_store (lit "<p></p>") (lit "<b>")).
Proof.
  apply (splice_missing_open_tag (demo_store (lit "<p></p>") (lit "<b>"))
           (lit "<p></p>") (lit "<b>")); reflexivity.
Defined.

(** C8. A host document with the opening tag, first at [i], and no closing tag
    at or after [i]: the second lookup raises the [ValueError] of [str.index]
    before the write, and the store is the one the script started from. *)
Theorem splice_missing_close_tag (w : world) (host script : str) (i : nat) :
  files w html_path = Some host ->
  files w script_path = Some script ->
  first_at open_tag host 0 i ->
  (forall j, i <= j -> ~ occurs_at close_tag host j) ->
  splice host script = Raise (ValueError "substring not found") /\
  rewrite_script w = (Raise (ValueError "substring not found"), w).
Proof.
  intros Hh Hs Fi Hn.
  assert (E : splice host script = Raise (ValueError "substring not found")).
  { unfold splice. now rewrite (index_found _ _ _ _ Fi), (index_missing _ _ _ Hn). }
  split; [exact E|]. now rewrite (run_rewrite_script _ _ _ Hh Hs), E.
Qed.

Lemma splice_missing_close_tag_witness :
  splice (close_tag ++ open_tag ++ lit "x") (lit "<b>")
    = Raise (ValueError "substring not found") /\
  rewrite_script (demo_store (close_tag ++ open_tag ++ lit "x") (lit "<b>")) =
    (Raise (ValueError "substring not found"),
     demo_store (close_tag ++ open_tag ++ lit "x") (lit "<b>")).
Proof.
  apply (splice_missing_close_tag (demo_store (close_tag ++ open_tag ++ lit "x") (lit "<b>"))
           (close_tag ++ open_tag ++ lit "x") (lit "<b>") 9).
  - reflexivity.
  - reflexivity.
  - apply find_Some. reflexivity.
  - apply find_from_None. reflexivity.
Defined.

(** ** Markup-Patch: the style injection *)

(** C2, counterexample.  The scenario document has no marker and one
    [</style>], at index 15, but not the anchor the script looks for, which
    starts with two spaces: the step leaves it as it is, without the style
    rules.  And a document with the anchor twice gets the rules twice. *)
Lemma inject_style_scenario_unchanged :
  contains marker scenario_doc = false /\
  first_at (lit "</style>") scenario_doc 0 15 /\
  inject_style scenario_doc = scenario_doc /\
  contains css_insert (inject_style scenario_doc) = false /\
  ~ inserts_before_first_style_close scenario_doc /\
  inject_style (style_anchor ++ style_anchor) =
    (css_insert ++ nl ++ nl ++ style_anchor) ++ (css_insert ++ nl ++ nl ++ style_anchor).
Proof.
  assert (F : first_at (lit "</style>") scenario_doc 0 15)
    by (apply find_Some; vm_compute; reflexivity).
  assert (E : inject_style scenario_doc = scenario_doc) by (vm_compute; reflexivity).
  repeat split; try (vm_compute; reflexivity); try apply F.
  intros H. specialize (H 15 F). rewrite E in H.
  apply (f_equal (@length _)) in H. vm_compute in H. discriminate.
Qed.

(** C2, amended.  Cut the document at the occurrences of the two-space
    indented [  </style>]: when the marker is absent the step puts the style
    rules and a blank line before every one of these occurrences and keeps
    the pieces between them; when the marker is present the document is left
    unchanged. *)
Theorem inject_style_every_anchor (doc : str) :
  (exists pieces,
      doc = join style_anchor pieces /\
      Forall (fun p => contains style_anchor p = false) pieces) /\
  (forall pieces,
      doc = join style_anchor pieces ->
      Forall (fun p => contains style_anchor p = false) pieces ->
      inject_style doc =
        if contains marker doc then doc
        else join (css_insert ++ nl ++ nl ++ style_anchor) pieces).
Proof.
  split.
  - destruct (join_exists style_anchor doc style_anchor_nonempty) as (ps & E & _ & F).
    now exists ps.
  - intros pieces -> F. unfold inject_style.
    destruct (contains marker (join style_anchor pieces)); cbn [negb]; [reflexivity|].
    apply replace_join;
      [exact style_anchor_nonempty | exact style_anchor_border_free | assumption].
Qed.

Lemma inject_style_every_anchor_witness :
  inject_style (lit "<style>" ++ nl ++ style_anchor ++ nl) =
    (lit "<style>" ++ nl) ++ (css_insert ++ nl ++ nl ++ style_anchor) ++ nl.
Proof.
  apply (proj2 (inject_style_every_anchor (lit "<style>" ++ nl ++ style_anchor ++ nl))
           [lit "<style>" ++ nl; nl]).
  - reflexivity.
  - repeat constructor.
Defined.

(** C3, counterexample.  After one run on a document that holds only the
    anchor the marker occurs three times, as often as in the style rules;
    after a run on the empty document it does not occur at all. *)
Lemma marker_count_not_one :
  contains marker style_anchor = false /\
  occurrences marker (inject_style style_anchor) = 3 /\
  occurrences marker (inject_style (inject_style style_anchor)) = 3 /\
  occurrences marker (inject_style []) = 0.
Proof. repeat split; vm_compute; reflexivity. Qed.

(** C3, amended.  Any number of runs of the step gives the document the first
    run gives, so the number of occurrences of the marker is the same after
    every run. *)
Theorem inject_style_runs_agree (doc : str) (n : nat) :
  Nat.iter (S n) inject_style doc = inject_style doc /\
  occurrences marker (Nat.iter (S n) inject_style doc)
    = occurrences marker (inject_style doc).
Proof.
  assert (E : Nat.iter (S n) inject_style doc = inject_style doc).
  { induction n as [|n IH]; [reflexivity|].
    change (inject_style (Nat.iter (S n) inject_style doc) = inject_style doc).
    rewrite IH. apply inject_style_idempotent. }
  now rewrite E.
Qed.

(** C9. The step is a total function on texts: it returns its input, or the
    text with the style rules put in; without the anchor it returns its
    input, and the script goes on to the replacement of the panel; the only
    exception the two steps can raise is the [SystemExit] of the second. *)
Theorem inject_style_never_fails (doc : str) :
  (inject_style doc = doc \/
   (contains marker doc = false /\ contains style_anchor doc = true /\
    contains (css_insert ++ nl ++ nl ++ style_anchor) (inject_style doc) = true)) /\
  (contains style_anchor doc = false ->
   inject_style doc = doc /\ patch doc = replace_block doc) /\
  (forall e, patch doc = Raise e ->
   e = SystemExit diagnostic /\ contains old_block (inject_style doc) = false).
Proof.
  split; [apply inject_style_cases|]. split.
  - intros H. unfold patch. now rewrite (inject_style_no_anchor _ H).
  - intros e. unfold patch, replace_block.
    destruct (contains old_block (inject_style doc)); [discriminate|].
    now intros [= <-].
Qed.

Lemma inject_style_never_fails_witness :
  inject_style scenario_doc = scenario_doc /\
  patch scenario_doc = replace_block scenario_doc.
Proof.
  apply (proj1 (proj2 (inject_style_never_fails scenario_doc))). reflexivity.
Defined.

(** C10. The guard looks for the marker in the whole document: wherever it
    occurs, the step returns the document as it is, and a document without
    the style rules stays without them. *)
Theorem marker_anywhere_blocks_injection (doc : str) :
  contains marker doc = true ->
  inject_style doc = doc /\
  contains css_insert (inject_style doc) = contains css_insert doc.
Proof.
  intros H. rewrite (inject_style_marker _ H). now split.
Qed.

Lemma marker_anywhere_blocks_injection_witness :
  contains style_anchor marked_doc = true /\
  contains css_insert marked_doc = false /\
  inject_style marked_doc = marked_doc /\
  contains css_insert (inject_style marked_doc) = contains css_insert marked_doc.
Proof.
  split; [reflexivity|]. split; [vm_compute; reflexivity|].
  apply (marker_anywhere_blocks_injection marked_doc). reflexivity.
Defined.

(** ** Markup-Patch: the replacement of the panel *)

(** C7, counterexample.  In a document with the panel twice both are
    replaced, so the text after the first one is not kept. *)
Lemma replace_block_twice :
  first_at old_block (old_block ++ old_block) 0 0 /\
  replace_block (old_block ++ old_block) = Ok (new_markup ++ new_markup) /\
  ~ replaces_first_block_only (old_block ++ old_block).
Proof.
  assert (F : first_at old_block (old_block ++ old_block) 0 0)
    by (apply find_Some; vm_compute; reflexivity).
  assert (E : replace_block (old_block ++ old_block) = Ok (new_markup ++ new_markup))
    by (vm_compute; reflexivity).
  split; [exact F|]. split; [exact E|].
  intros H. specialize (H 0 F). rewrite E in H.
  apply (f_equal (fun r => match r with Ok t => length t | Raise _ => 0 end)) in H.
  vm_compute in H. discriminate.
Qed.

(** C7, amended.  Cut a document that holds the panel at its occurrences:
    there are at least two pieces, every occurrence is replaced by the new
    markup, and the pieces are kept as they are; with one occurrence the
    result is the text before it, the new markup, and the text after it. *)
Theorem replace_block_every_occurrence (doc : str) :
  contains old_block doc = true ->
  (exists pieces,
      doc = join old_block pieces /\
      Forall (fun p => contains old_block p = false) pieces) /\
  (forall pieces,
      doc = join old_block pieces ->
      Forall (fun p => contains old_block p = false) pieces ->
      2 <= length pieces /\ replace_block doc = Ok (join new_markup pieces)) /\
  (forall pre post,
      doc = pre ++ old_block ++ post ->
      contains old_block pre = false -> contains old_block post = false ->
      replace_block doc = Ok (pre ++ new_markup ++ post)).
Proof.
  intros H.
  assert (J : forall pieces,
             doc = join old_block pieces ->
             Forall (fun p => contains old_block p = false) pieces ->
             2 <= length pieces /\ replace_block doc = Ok (join new_markup pieces)).
  { intros pieces E F. split.
    - destruct pieces as [|p [|q ps]]; [| |simpl; lia]; exfalso.
      + subst doc. apply contains_true in H. destruct H as (pre & post & E).
        destruct pre; [|discriminate]. cbn [join app] in E.
        symmetry in E. apply app_eq_nil in E. now apply old_block_nonempty.
      + subst doc. cbn [join] in H. inversion F; subst. congruence.
    - rewrite (replace_block_found _ H). f_equal. subst doc.
      apply replace_join;
        [exact old_block_nonempty | exact old_block_border_free | assumption]. }
  split; [|split].
  - destruct (join_exists old_block doc old_block_nonempty) as (ps & E & _ & F).
    now exists ps.
  - exact J.
  - intros pre post E Hpre Hpost.
    apply (J [pre; post] E). now repeat constructor.
Qed.

Lemma replace_block_every_occurrence_witness :
  replace_block (lit "<main>" ++ old_block ++ lit "</main>")
    = Ok (lit "<main>" ++ new_markup ++ lit "</main>").
Proof.
  apply (proj2 (proj2 (replace_block_every_occurrence
                         (lit "<main>" ++ old_block ++ lit "</main>")
                         ltac:(vm_compute; reflexivity)))
           (lit "<main>") (lit "</main>")).
  - reflexivity.
  - vm_compute; reflexivity.
  - vm_compute; reflexivity.
Defined.

(** C4. The script does not get there: on every store, and so on one whose
    [public/index.html] holds no panel, it raises [NameError] at line 2,
    before it reads the file, and does not end with the diagnostic.  The
    store is the one it started from.  Lines 220-230 alone do end with the
    diagnostic on a text without the panel, also where the style injection
    has changed the text. *)
Theorem tmp_modify_stops_at_line_2 (w : world) :
  tmp_modify w = (Raise (NameError "name 'Path' is not defined"), w) /\
  tmp_modify (index_store style_anchor)
    <> (Raise (SystemExit diagnostic), index_store style_anchor) /\
  contains old_block style_anchor = false /\
  inject_style style_anchor <> style_anchor /\
  patch style_anchor = Raise (SystemExit diagnostic).
Proof.
  assert (N : contains old_block style_anchor = false) by (vm_compute; reflexivity).
  split; [apply run_tmp_modify|]. split; [rewrite run_tmp_modify; discriminate|].
  split; [exact N|]. split; [|now apply patch_aborts_without_block].
  intros H. apply (f_equal (@length _)) in H. vm_compute in H. discriminate.
Qed.

(** C5. A document with the panel: the replacement succeeds and its result
    holds no panel, so the replacement applied to that result ends with the
    diagnostic.  The same holds for the two steps together: they succeed on
    the document, and on their result they end with the diagnostic. *)
Theorem second_replacement_fails (doc : str) :
  contains old_block doc = true ->
  (exists out,
      replace_block doc = Ok out /\ contains old_block out = false /\
      replace_block out = Raise (SystemExit diagnostic)) /\
  (exists out,
      patch doc = Ok out /\ contains old_block out = false /\
      patch out = Raise (SystemExit diagnostic)).
Proof.
  intros H. split.
  - exists (replace doc old_block new_markup).
    split; [now apply replace_block_found|].
    split; [apply replaced_has_no_block|].
    apply replace_block_missing, replaced_has_no_block.
  - pose proof (inject_style_keeps_block _ H) as K.
    exists (replace (inject_style doc) old_block new_markup).
    split; [unfold patch; now apply replace_block_found|].
    split; [apply replaced_has_no_block|].
    unfold patch. rewrite (inject_style_marker _ (replaced_has_marker _ K)).
    apply replace_block_missing, replaced_has_no_block.
Qed.

Lemma second_replacement_fails_witness :
  (exists out,
      replace_block old_block = Ok out /\ contains old_block out = false /\
      replace_block out = Raise (SystemExit diagnostic)) /\
  (exists out,
      patch old_block = Ok out /\ contains old_block out = false /\
      patch out = Raise (SystemExit diagnostic)).
Proof.
  apply (second_replacement_fails old_block). vm_compute; reflexivity.
Defined.

(** * Further properties of the scripts *)

(** ** The store around a run *)



(** X2. A run of [rewrite_script.py] that returns has written once, to the
    host file; every other file, the script file among them, holds what it
    held before. *)
Theorem rewrite_script_frame (w w' : world) :
  rewrite_script w = (Ok tt, w') ->
  (forall q, q <> html_path -> files w' q = files w q) /\
  files w' script_path = files w script_path /\
  exists out, files w' html_path = Some out /\
              written w' = (html_path, out) :: written w.
Proof.
  unfold rewrite_script, bind, read_text, lift, write_text.
  destruct (files w html_path) as [host|]; [|discriminate].
  destruct (files w script_path) as [script|] eqn:Hs; [|discriminate].
  destruct (splice host script) as [out|]; [|discriminate].
  intros [= <-].
  assert (F : forall q, q <> html_path -> files (store_after w html_path out) q = files w q).
  { intros q Hq. unfold store_after. cbn [files].
    apply String.eqb_neq in Hq. now rewrite Hq. }
  split; [exact F|]. split.
  - rewrite F; [now rewrite Hs | discriminate].
  - exists out. split; [apply files_store_after | reflexivity].
Qed.

Lemma rewrite_script_frame_witness :
  let w := demo_store (script_element (lit "old")) (script_element (lit "new")) in
  let w' := store_after w html_path (script_element (lit "new")) in
  (forall q, q <> html_path -> files w' q = files w q) /\
  files w' script_path = files w script_path /\
  exists out, files w' html_path = Some out /\
              written w' = (html_path, out) :: written w.
Proof.
  apply (rewrite_script_frame
           (demo_store (script_element (lit "old")) (script_element (lit "new")))).
  reflexivity.
Defined.

(** ** The splice *)

Lemma occurs_at_common_prefix sub c r1 r2 j :
  occurs_at sub (c ++ r1) j -> j + length sub <= length c ->
  occurs_at sub (c ++ r2) j.
Proof.
  intros (x & y & E & <-) L.
  assert (P : exists l, c = x ++ sub ++ l).
  { rewrite app_assoc in E. apply app_eq_app in E.
    destruct E as [l [[E _]|[E _]]].
    - exists l. now rewrite E, <- app_assoc.
    - exists []. apply (f_equal (@length _)) in E as E'.
      rewrite !length_app in E'. destruct l; [|simpl in E'; lia].
      now rewrite app_nil_r in *. }
  destruct P as [l ->]. exists x, (l ++ r2). now rewrite <- !app_assoc.
Qed.

(** The two lookups succeed exactly on the hosts of this shape. *)
Lemma splice_of_decomposition host script pre mid post :
  host = pre ++ open_tag ++ mid ++ close_tag ++ post ->
  first_at open_tag host 0 (length pre) ->
  first_at close_tag host (length pre) (length (pre ++ open_tag ++ mid)) ->
  splice host script = Ok (pre ++ script ++ post).
Proof.
  intros E Fi Fj. unfold splice.
  rewrite (index_found _ _ _ _ Fi), (index_found _ _ _ _ Fj).
  unfold slice_to, slice_from. rewrite <- length_app. rewrite E.
  rewrite firstn_app_exact.
  replace (pre ++ open_tag ++ mid ++ close_tag ++ post)
    with (((pre ++ open_tag ++ mid) ++ close_tag) ++ post)
    by now rewrite <- !app_assoc.
  now rewrite skipn_app_exact.
Qed.

Lemma splice_decompose host script out :
  splice host script = Ok out ->
  exists pre mid post,
    host = pre ++ open_tag ++ mid ++ close_tag ++ post /\
    first_at open_tag host 0 (length pre) /\
    first_at close_tag host (length pre) (length (pre ++ open_tag ++ mid)) /\
    out = pre ++ script ++ post.
Proof.
  intros S. pose proof S as S0. unfold splice, index in S.
  destruct (find_from host open_tag 0) as [i|] eqn:Fi; [|discriminate].
  destruct (find_from host close_tag i) as [j|] eqn:Fj; [|discriminate].
  apply find_from_Some in Fi, Fj. clear S.
  pose proof Fi as (_ & (pre & v & E & Li) & _).
  pose proof Fj as (Hj & (x & post & E' & Lj) & _).
  assert (M : exists mid, x = pre ++ open_tag ++ mid /\ v = mid ++ close_tag ++ post).
  { rewrite E in E'. symmetry in E'.
    destruct (disjoint_split _ _ _ _ _ _ close_open_disjoint E')
      as [[l [U _]]|[l [X V]]].
    - exfalso. apply (f_equal (@length _)) in U. rewrite !length_app in U.
      assert (0 < length close_tag) by (simpl; lia). lia.
    - now exists l. }
  destruct M as (mid & -> & ->). subst i j.
  exists pre, mid, post. split; [exact E|]. split; [exact Fi|]. split; [exact Fj|].
  rewrite (splice_of_decomposition _ script _ _ _ E Fi Fj) in S0. congruence.
Qed.

(** X4. The splice succeeds exactly when the host holds an opening tag and a
    closing tag at or after it, whatever the replacement text; when it does
    not succeed it raises the [ValueError] of [str.index]. *)
Theorem splice_succeeds_iff (host script : str) :
  ((exists out, splice host script = Ok out) <->
   (exists i j, occurs_at open_tag host i /\ occurs_at close_tag host j /\ i <= j)) /\
  (forall e, splice host script = Raise e -> e = ValueError "substring not found").
Proof.
  split; [split|].
  - intros [out S]. apply splice_decompose in S.
    destruct S as (pre & mid & post & _ & (_ & Oi & _) & (Hj & Oj & _) & _).
    now exists (length pre), (length (pre ++ open_tag ++ mid)).
  - intros (i0 & j0 & Ho & Hc & Hij).
    destruct (first_at_exists _ _ 0 _ Ho (Nat.le_0_l _)) as (i & Fi & Hi).
    destruct (first_at_exists _ _ i _ Hc (Nat.le_trans _ _ _ Hi Hij)) as (j & Fj & _).
    unfold splice. rewrite (index_found _ _ _ _ Fi), (index_found _ _ _ _ Fj).
    eexists. reflexivity.
  - intros e. unfold splice, index.
    destruct (find_from host open_tag 0) as [i|]; [|now intros [= <-]].
    destruct (find_from host close_tag i) as [j|]; [discriminate | now intros [= <-]].
Qed.

Lemma splice_succeeds_iff_witness :
  exists out, splice (close_tag ++ script_element (lit "x")) (lit "y") = Ok out.
Proof.
  apply (proj2 (proj1 (splice_succeeds_iff (close_tag ++ script_element (lit "x")) (lit "y")))).
  exists 9, 32. split; [|split; [|lia]].
  - exists close_tag, (lit "x" ++ close_tag). split; reflexivity.
  - exists (close_tag ++ open_tag ++ lit "x"), []. split; reflexivity.
Defined.

Lemma close_tag_border_free : overlapb close_tag close_tag = false.
Proof. vm_compute. reflexivity. Qed.

(** The closing tag of a script element whose body holds none is the first
    closing tag of the element. *)
Lemma script_element_close body rest :
  contains close_tag body = false ->
  first_at close_tag (script_element body ++ rest) 0 (length (open_tag ++ body)).
Proof.
  intros Hb. unfold script_element.
  replace ((open_tag ++ body ++ close_tag) ++ rest)
    with ((open_tag ++ body) ++ close_tag ++ rest) by now rewrite <- !app_assoc.
  apply border_free_first; [exact close_tag_border_free|].
  apply not_true_iff_false. intros C.
  change (open_tag ++ body) with ([] ++ open_tag ++ body) in C.
  apply (disjoint_contains _ _ _ _ close_open_disjoint) in C.
  destruct C as [C|C]; [discriminate | congruence].
Qed.

(** Where a script element has been spliced in, the next splice finds it. *)
Lemma script_element_spliced host body out :
  contains close_tag body = false ->
  splice host (script_element body) = Ok out ->
  exists pre post,
    out = pre ++ script_element body ++ post /\
    forall script,
      splice host script = Ok (pre ++ script ++ post) /\
      splice out script = Ok (pre ++ script ++ post).
Proof.
  intros Hb S. apply splice_decompose in S.
  destruct S as (pre & mid & post & E & Fi & Fj & ->).
  exists pre, post. split; [reflexivity|].
  assert (E1 : pre ++ script_element body ++ post
               = pre ++ open_tag ++ body ++ close_tag ++ post)
    by (unfold script_element; now rewrite <- !app_assoc).
  assert (Gi : first_at open_tag (pre ++ script_element body ++ post) 0 (length pre)).
  { rewrite E1. apply first_at_app. intros j Hj Ho.
    destruct Fi as (_ & _ & Hm). apply (Hm j); [lia | assumption |].
    rewrite E. rewrite app_assoc in Ho |- *.
    apply (occurs_at_common_prefix _ _ _ _ _ Ho). rewrite length_app. lia. }
  assert (Gj : first_at close_tag (pre ++ script_element body ++ post)
                 (length pre) (length (pre ++ open_tag ++ body))).
  { pose proof (script_element_close body post Hb) as (_ & Oc & Hm).
    repeat split.
    - rewrite length_app. lia.
    - rewrite length_app.
      apply (occurs_at_skipn _ (pre ++ script_element body ++ post) (length pre));
        [rewrite length_app; lia|].
      now rewrite skipn_app_exact.
    - intros j Hj1 Hj2 Ho. rewrite length_app in Hj2.
      apply (Hm (j - length pre)); [lia | lia |].
      replace j with (length pre + (j - length pre)) in Ho by lia.
      apply occurs_at_skipn in Ho; [|rewrite length_app; lia].
      now rewrite skipn_app_exact in Ho. }
  intros script. split.
  - exact (splice_of_decomposition _ script _ _ _ E Fi Fj).
  - exact (splice_of_decomposition _ script _ _ _ E1 Gi Gj).
Qed.

(** X5. Once a script element whose body holds no closing tag has been
    spliced in, splicing again gives what splicing into the original host
    gives: the later replacement wins, and splicing the same element twice
    changes nothing. *)
Theorem splice_last_wins (host body script out : str) :
  contains close_tag body = false ->
  splice host (script_element body) = Ok out ->
  splice out script = splice host script /\
  splice out (script_element body) = Ok out.
Proof.
  intros Hb S.
  destruct (script_element_spliced _ _ _ Hb S) as (pre & post & -> & H).
  split.
  - destruct (H script) as [-> ->]. reflexivity.
  - exact (proj2 (H (script_element body))).
Qed.

Lemma splice_last_wins_witness :
  let out := lit "<p>" ++ script_element (lit "new") ++ lit "</p>" in
  splice out (lit "z") = splice (lit "<p>" ++ script_element (lit "old") ++ lit "</p>") (lit "z") /\
  splice out (script_element (lit "new")) = Ok out.
Proof.
  apply (splice_last_wins (lit "<p>" ++ script_element (lit "old") ++ lit "</p>")
           (lit "new") (lit "z")); reflexivity.
Defined.

(** X12. When [new_script.js] holds a script element whose body holds no
    closing tag, a second run of [rewrite_script.py] after a run that
    returned returns too and writes the host file with the text it already
    holds. *)
Theorem rewrite_script_rerun (w w1 : world) (body : str) :
  files w script_path = Some (script_element body) ->
  contains close_tag body = false ->
  rewrite_script w = (Ok tt, w1) ->
  exists out,
    files w1 html_path = Some out /\
    rewrite_script w1 = (Ok tt, store_after w1 html_path out) /\
    forall q, files (store_after w1 html_path out) q = files w1 q.
Proof.
  intros Hs Hb R.
  destruct (files w html_path) as [host|] eqn:Hh;
    [|unfold rewrite_script, bind, read_text in R; rewrite Hh in R; discriminate].
  rewrite (run_rewrite_script _ _ _ Hh Hs) in R.
  destruct (splice host (script_element body)) as [out|] eqn:S; [|discriminate].
  injection R as <-. exists out.
  assert (H1 : files (store_after w html_path out) html_path = Some out)
    by apply files_store_after.
  assert (H2 : files (store_after w html_path out) script_path = Some (script_element body)).
  { unfold store_after. cbn [files].
    replace (String.eqb script_path html_path) with false by reflexivity. exact Hs. }
  split; [exact H1|]. split.
  - rewrite (run_rewrite_script _ _ _ H1 H2).
    destruct (script_element_spliced _ _ _ Hb S) as (pre & post & E & H).
    rewrite (proj2 (H (script_element body))). now rewrite <- E.
  - intros q. unfold store_after at 1. cbn [files].
    destruct (String.eqb_spec q html_path) as [->|_]; [now rewrite H1 | reflexivity].
Qed.

Lemma rewrite_script_rerun_witness :
  let w1 := store_after
              (demo_store (lit "<p>" ++ script_element (lit "old")) (script_element (lit "new")))
              html_path (lit "<p>" ++ script_element (lit "new")) in
  exists out,
    files w1 html_path = Some out /\
    rewrite_script w1 = (Ok tt, store_after w1 html_path out) /\
    forall q, files (store_after w1 html_path out) q = files w1 q.
Proof.
  apply (rewrite_script_rerun
           (demo_store (lit "<p>" ++ script_element (lit "old")) (script_element (lit "new")))
           _ (lit "new")); reflexivity.
Defined.

(** ** The two steps of [tmp_modify.py] together *)

Lemma old_block_css_insert_disjoint : disjointb old_block css_insert = true.
Proof. vm_compute. reflexivity. Qed.

Lemma css_insert_new_markup_disjoint : disjointb css_insert new_markup = true.
Proof. vm_compute. reflexivity. Qed.

Lemma new_markup_border_free : overlapb new_markup new_markup = false.
Proof. vm_compute. reflexivity. Qed.

Lemma style_block_border_free : overlapb style_block style_block = false.
Proof. vm_compute. reflexivity. Qed.

Lemma old_block_split : old_block = panel_head ++ section_close.
Proof. vm_compute. reflexivity. Qed.

Lemma new_markup_split : new_markup = panel_head ++ added_markup ++ section_close.
Proof. vm_compute. reflexivity. Qed.

Lemma added_markup_nonempty : added_markup <> [].
Proof. intros E. apply (f_equal (@length _)) in E. vm_compute in E. discriminate. Qed.

Opaque panel_head added_markup style_block.

(** Replacing [old] by a [new] that a word [w] cannot overlap creates no
    occurrence of [w]. *)
Lemma replace_no_new w old new s :
  disjointb w new = true -> old <> [] ->
  contains w (replace s old new) = true -> contains w s = true.
Proof.
  intros D Hne. induction s as [s IH] using str_length_ind.
  destruct (replace_cases s old new Hne) as [[_ ->]|(p & rest & -> & _ & Hl & ->)];
    [trivial|].
  intros H. apply (disjoint_contains _ _ _ _ D) in H. destruct H as [H|H].
  - now apply contains_app_l.
  - apply contains_app_r, contains_app_r. now apply IH.
Qed.

Lemma contains_join_free w sep pieces :
  contains w (join sep pieces) = false ->
  Forall (fun p => contains w p = false) pieces.
Proof.
  induction pieces as [|p ps IH]; intros H; [constructor|].
  destruct ps as [|q ps]; [now repeat constructor|].
  change (join sep (p :: q :: ps)) with (p ++ sep ++ join sep (q :: ps)) in H.
  constructor.
  - apply not_true_iff_false. intros C.
    apply (contains_app_l _ _ (sep ++ join sep (q :: ps))) in C. congruence.
  - apply IH. apply not_true_iff_false. intros C.
    apply (contains_app_r _ sep), (contains_app_r _ p) in C. congruence.
Qed.

(** Replacing back restores a text that did not hold [new]. *)
Lemma replace_undo old new s :
  old <> [] -> new <> [] ->
  overlapb old old = false -> overlapb new new = false ->
  contains new s = false ->
  replace (replace s old new) new old = s.
Proof.
  intros Ho Hn Bo Bn Hs.
  destruct (join_exists old s Ho) as (ps & -> & _ & F).
  rewrite (replace_join old new ps Ho Bo F).
  apply (replace_join new old ps Hn Bn).
  now apply (contains_join_free new old).
Qed.

Lemma patch_Ok doc out :
  patch doc = Ok out ->
  contains old_block (inject_style doc) = true /\
  out = replace (inject_style doc) old_block new_markup.
Proof.
  unfold patch, replace_block.
  destruct (contains old_block (inject_style doc)); [|discriminate].
  now intros [= <-].
Qed.

(** X6. The style injection neither hides nor creates the panel: the two
    steps succeed exactly on the documents that hold the panel, and then
    give the injected text with the panel replaced. *)
Theorem patch_succeeds_iff (doc : str) :
  contains old_block (inject_style doc) = contains old_block doc /\
  ((exists out, patch doc = Ok out) <-> contains old_block doc = true) /\
  (contains old_block doc = true ->
   patch doc = Ok (replace (inject_style doc) old_block new_markup)).
Proof.
  assert (E : contains old_block (inject_style doc) = contains old_block doc).
  { destruct (contains old_block doc) eqn:C.
    - now apply inject_style_keeps_block.
    - now apply inject_style_no_new_block. }
  split; [exact E|]. split; [split|].
  - intros [out P]. apply patch_Ok in P. now rewrite <- E.
  - intros C. eexists. unfold patch. apply replace_block_found. now rewrite E.
  - intros C. unfold patch. apply replace_block_found. now rewrite E.
Qed.

Lemma patch_succeeds_iff_witness :
  patch (style_anchor ++ old_block)
    = Ok (replace (inject_style (style_anchor ++ old_block)) old_block new_markup).
Proof.
  apply (proj2 (proj2 (patch_succeeds_iff (style_anchor ++ old_block)))).
  vm_compute. reflexivity.
Defined.

(** X7. A document without the marker that holds the anchor and the panel:
    the two steps succeed, and their result holds the style rules and the
    new markup, and no panel to be replaced. *)
Theorem patch_inserts_both (doc : str) :
  contains marker doc = false ->
  contains style_anchor doc = true ->
  contains old_block doc = true ->
  exists out,
    patch doc = Ok out /\
    contains css_insert out = true /\ contains new_markup out = true /\
    contains old_block out = false.
Proof.
  intros M A B.
  assert (C : contains css_insert (inject_style doc) = true).
  { rewrite (inject_style_no_marker _ M).
    destruct (replace_cases doc style_anchor (css_insert ++ nl ++ nl ++ style_anchor)
                style_anchor_nonempty) as [[N _]|(p & rest & _ & _ & _ & ->)];
      [congruence|].
    apply contains_app_r, contains_app_l, contains_app_l, contains_refl. }
  pose proof (inject_style_keeps_block _ B) as K.
  exists (replace (inject_style doc) old_block new_markup).
  split; [unfold patch; now apply replace_block_found|].
  split; [now apply replace_keeps; [exact old_block_css_insert_disjoint|]|].
  split; [|apply replaced_has_no_block].
  destruct (replace_cases (inject_style doc) old_block new_markup old_block_nonempty)
    as [[N _]|(p & rest & _ & _ & _ & ->)]; [congruence|].
  apply contains_app_r, contains_app_l, contains_refl.
Qed.

Lemma patch_inserts_both_witness :
  exists out,
    patch (style_anchor ++ old_block) = Ok out /\
    contains css_insert out = true /\ contains new_markup out = true /\
    contains old_block out = false.
Proof.
  apply (patch_inserts_both (style_anchor ++ old_block)); vm_compute; reflexivity.
Defined.

(** X8. The result of the two steps holds the marker, so the style injection
    leaves it as it is on every later run; and it holds the style rules
    exactly when the text had them after the style injection of this run:
    rules that did not get in with the new markup never get in. *)
Theorem style_rules_only_with_markup (doc out : str) :
  patch doc = Ok out ->
  contains marker out = true /\
  inject_style out = out /\
  contains css_insert out = contains css_insert (inject_style doc).
Proof.
  intros P. apply patch_Ok in P. destruct P as [K ->].
  pose proof (replaced_has_marker _ K) as M.
  split; [exact M|]. split; [now apply inject_style_marker|].
  destruct (contains css_insert (inject_style doc)) eqn:C.
  - now apply replace_keeps; [exact old_block_css_insert_disjoint|].
  - apply not_true_iff_false. intros H.
    apply replace_no_new in H;
      [congruence | exact css_insert_new_markup_disjoint | exact old_block_nonempty].
Qed.

Lemma style_rules_only_with_markup_witness :
  contains marker new_markup = true /\
  inject_style new_markup = new_markup /\
  contains css_insert new_markup = contains css_insert (inject_style old_block).
Proof.
  apply (style_rules_only_with_markup old_block new_markup).
  vm_compute. reflexivity.
Defined.

(** X9. The new markup is the panel with [added_markup] put before its last
    line, so the replacement deletes nothing: around one occurrence of the
    panel, the result is the document with [added_markup] inserted between
    the panel's [div] and the closing [</section>] line. *)
Theorem replace_block_only_inserts (pre post : str) :
  contains old_block pre = false ->
  contains old_block post = false ->
  old_block = panel_head ++ section_close /\
  added_markup <> [] /\
  replace_block (pre ++ panel_head ++ section_close ++ post)
    = Ok (pre ++ panel_head ++ added_markup ++ section_close ++ post).
Proof.
  intros Hpre Hpost. split; [exact old_block_split|].
  split; [exact added_markup_nonempty|].
  assert (E : pre ++ panel_head ++ section_close ++ post = join old_block [pre; post]).
  { cbn [join]. now rewrite old_block_split, <- !app_assoc. }
  assert (E' : pre ++ panel_head ++ added_markup ++ section_close ++ post
               = join new_markup [pre; post]).
  { cbn [join]. now rewrite new_markup_split, <- !app_assoc. }
  rewrite E, E'.
  assert (C : contains old_block (join old_block [pre; post]) = true).
  { cbn [join]. apply contains_app_r, contains_app_l, contains_refl. }
  rewrite (replace_block_found _ C). f_equal.
  apply replace_join; [exact old_block_nonempty | exact old_block_border_free |].
  now repeat constructor.
Qed.

Lemma replace_block_only_inserts_witness :
  old_block = panel_head ++ section_close /\
  added_markup <> [] /\
  replace_block (lit "<main>" ++ panel_head ++ section_close ++ lit "</main>")
    = Ok (lit "<main>" ++ panel_head ++ added_markup ++ section_close ++ lit "</main>").
Proof.
  apply (replace_block_only_inserts (lit "<main>") (lit "</main>"));
    vm_compute; reflexivity.
Defined.

(** X10. The replacement of the panel can be undone: on a document that did
    not hold the new markup, replacing [new_markup] by [old_block] in the
    result gives the document back, so two such documents with the same
    result are the same. *)
Theorem replace_block_undo (doc out : str) :
  contains new_markup doc = false ->
  replace_block doc = Ok out ->
  replace out new_markup old_block = doc /\
  (forall doc', contains new_markup doc' = false ->
                replace_block doc' = Ok out -> doc' = doc).
Proof.
  assert (Nn : new_markup <> [])
    by (intros E; pose proof marker_in_new_markup as M; now rewrite E in M).
  assert (U : forall d o, contains new_markup d = false -> replace_block d = Ok o ->
                          replace o new_markup old_block = d).
  { intros d o Hd R. unfold replace_block in R.
    destruct (contains old_block d); [|discriminate]. injection R as <-.
    apply replace_undo;
      [exact old_block_nonempty | exact Nn | exact old_block_border_free
      | exact new_markup_border_free | assumption]. }
  intros Hd R. split; [now apply U|].
  intros doc' Hd' R'. rewrite <- (U _ _ Hd R), <- (U _ _ Hd' R'). reflexivity.
Qed.

Lemma replace_block_undo_witness :
  replace (lit "<main>" ++ new_markup) new_markup old_block = lit "<main>" ++ old_block /\
  (forall doc', contains new_markup doc' = false ->
                replace_block doc' = Ok (lit "<main>" ++ new_markup) ->
                doc' = lit "<main>" ++ old_block).
Proof.
  apply (replace_block_undo (lit "<main>" ++ old_block)); vm_compute; reflexivity.
Defined.

(** X11. The style injection can be undone: on a document without the marker,
    replacing the inserted text by the anchor in the result gives the
    document back. *)
Theorem inject_style_undo (doc : str) :
  contains marker doc = false ->
  replace (inject_style doc) (css_insert ++ nl ++ nl ++ style_anchor) style_anchor = doc.
Proof.
  intros M. rewrite (inject_style_no_marker _ M).
  assert (Nn : css_insert ++ nl ++ nl ++ style_anchor <> [])
    by (intros E; pose proof marker_in_style_block as C; now rewrite E in C).
  apply replace_undo;
    [exact style_anchor_nonempty | exact Nn | exact style_anchor_border_free
    | exact style_block_border_free |].
  apply not_true_iff_false. intros C.
  rewrite (contains_trans _ _ _ marker_in_style_block C) in M. discriminate.
Qed.

Lemma inject_style_undo_witness :
  replace (inject_style (lit "<style>" ++ nl ++ style_anchor))
          (css_insert ++ nl ++ nl ++ style_anchor) style_anchor
    = lit "<style>" ++ nl ++ style_anchor.
Proof.
  apply (inject_style_undo (lit "<style>" ++ nl ++ style_anchor)).
  vm_compute. reflexivity.
Defined.
